(** * MUSEO: the Express front-end over the Met collection API

    A shallow embedding of [src/index.js]: the four route handlers
    ([/], [/search], [/object/:id/additional-images], [/results]) as
    functions from the outside world (the upstream collection API and the
    translation service, given as oracles) and a request to the response
    sent, together with the list of outbound calls the handler issued.

    Conventions of the embedding.
    - JavaScript numbers that the handlers compute with are integers; they
      are embedded as [Z] ([NaN] as [None] where [parseInt] can yield it),
      and the one division, inside [Math.ceil], is done over [Q].  Doubles
      agree with this on the safe-integer range, up to 2^53 - 1 in
      absolute value; beyond it the code rounds and the embedding does not.
    - A JavaScript string is embedded as the [string] of its UTF-8 bytes.
    - A promise is embedded by how it settles: [Resolved v] or
      [Rejected e], paired with the outbound calls made on the way.
    - The upstream JSON is embedded at the type the handlers consume it at:
      a field that may be missing, [null] or [undefined] is an [option]. *)

From Stdlib Require Import ZArith String Ascii DecimalString Lia.
From Stdlib Require QArith Qround DecimalPos DecimalFacts.
From stdpp Require Import base option list sets strings.

Local Open Scope string_scope.
Local Open Scope list_scope.
Local Open Scope Z_scope.

(** ** JavaScript primitives used by the handlers *)

Module JS.

(** Truthiness of a string, and of a string-valued property that may be
    absent: [""], [undefined] and [null] are falsy. *)
Definition truthy_string (s : string) : bool := negb (String.eqb s "").

Definition truthy (v : option string) : bool :=
  match v with
  | Some s => truthy_string s
  | None => false
  end.

(** [v || d] on such a property. *)
Definition or_default (v : option string) (d : string) : string :=
  if truthy v then default d v else d.

(** [n || d] on a number: [NaN] and [0] are falsy. *)
Definition num_or (n : option Z) (d : Z) : Z :=
  match n with
  | Some k => if k =? 0 then d else k
  | None => d
  end.

(** Template-literal conversion [`${n}`] of an integer. *)
Definition String_of_number (n : Z) : string :=
  NilZero.string_of_int (Z.to_int n).

(** *** [parseInt(string)] with the radix left undefined *)

(** White space as [parseInt] trims it: the ECMAScript WhiteSpace and
    LineTerminator code points, recognised in their UTF-8 encodings.
    One byte: TAB, LF, VT, FF, CR, SP. Two bytes: U+00A0. Three bytes:
    U+1680, U+2000 to U+200A, U+2028, U+2029, U+202F, U+205F, U+3000 and
    U+FEFF. *)
Definition is_white_space_byte (c : ascii) : bool :=
  let n := nat_of_ascii c in
  ((n =? 9) || (n =? 10) || (n =? 11) || (n =? 12) || (n =? 13) || (n =? 32))%nat.

Definition is_white_space2 (c1 c2 : ascii) : bool :=
  ((nat_of_ascii c1 =? 194) && (nat_of_ascii c2 =? 160))%nat.

Definition is_white_space3 (c1 c2 c3 : ascii) : bool :=
  let n1 := nat_of_ascii c1 in
  let n2 := nat_of_ascii c2 in
  let n3 := nat_of_ascii c3 in
  (((n1 =? 225) && (n2 =? 154) && (n3 =? 128))
   || ((n1 =? 226) && (n2 =? 128)
       && (((128 <=? n3) && (n3 <=? 138))
           || (n3 =? 168) || (n3 =? 169) || (n3 =? 175)))
   || ((n1 =? 226) && (n2 =? 129) && (n3 =? 159))
   || ((n1 =? 227) && (n2 =? 128) && (n3 =? 128))
   || ((n1 =? 239) && (n2 =? 187) && (n3 =? 191)))%nat.

Definition is_lead2 (c : ascii) : bool := (nat_of_ascii c =? 194)%nat.

Definition is_lead3 (c : ascii) : bool :=
  let n := nat_of_ascii c in
  ((n =? 225) || (n =? 226) || (n =? 227) || (n =? 239))%nat.

Fixpoint trim_start (s : string) : string :=
  match s with
  | String c1 s1 =>
      if is_white_space_byte c1 then trim_start s1
      else if is_lead2 c1 then
        match s1 with
        | String c2 s2 =>
            if is_white_space2 c1 c2 then trim_start s2 else s
        | EmptyString => s
        end
      else if is_lead3 c1 then
        match s1 with
        | String c2 (String c3 s3) =>
            if is_white_space3 c1 c2 c3 then trim_start s3 else s
        | _ => s
        end
      else s
  | EmptyString => EmptyString
  end.

Definition digit_value (c : ascii) : option Z :=
  let n := Z.of_nat (nat_of_ascii c) in
  if (48 <=? n) && (n <=? 57) then Some (n - 48)
  else if (97 <=? n) && (n <=? 122) then Some (n - 87)
  else if (65 <=? n) && (n <=? 90) then Some (n - 55)
  else None.

Definition radix_digit (R : Z) (c : ascii) : option Z :=
  match digit_value c with
  | Some d => if d <? R then Some d else None
  | None => None
  end.

(** The longest prefix of radix-[R] digits, read as a number; [acc] is
    [None] until a first digit has been seen. *)
Fixpoint parse_digits (R : Z) (acc : option Z) (s : string) : option Z :=
  match s with
  | String c s' =>
      match radix_digit R c with
      | Some d => parse_digits R (Some (R * default 0 acc + d)) s'
      | None => acc
      end
  | EmptyString => acc
  end.

Definition strip_sign (s : string) : Z * string :=
  match s with
  | String "-" r => (-1, r)
  | String "+" r => (1, r)
  | _ => (1, s)
  end.

Definition strip_prefix (s : string) : Z * string :=
  match s with
  | String "0" (String "x" r) => (16, r)
  | String "0" (String "X" r) => (16, r)
  | _ => (10, s)
  end.

(** [parseInt]: [None] stands for [NaN]. The value is the exact integer
    that the digits denote; the code has it as a double, which is the same
    number as long as it is a safe integer (at most [MAX_SAFE_INTEGER] in
    absolute value). A statement that depends on the value of a parsed
    numeral carries this bound. *)
Definition MAX_SAFE_INTEGER : Z := 9007199254740991.

Definition parseInt_string (s : string) : option Z :=
  let '(sign, s1) := strip_sign (trim_start s) in
  let '(R, s2) := strip_prefix s1 in
  match parse_digits R None s2 with
  | Some n => Some (sign * n)
  | None => None
  end.

(** [parseInt(req.query.x)]: a missing parameter is [undefined], which
    [parseInt] first converts to the string ["undefined"]. *)
Definition parseInt (v : option string) : option Z :=
  match v with
  | Some s => parseInt_string s
  | None => parseInt_string "undefined"
  end.

(** *** [Array.prototype.slice(start, end)] *)

Definition relative_index (len i : Z) : Z :=
  if i <? 0 then Z.max (len + i) 0 else Z.min i len.

Definition slice {A} (l : list A) (start end_ : Z) : list A :=
  let len := Z.of_nat (length l) in
  let k := relative_index len start in
  let final := relative_index len end_ in
  take (Z.to_nat (final - k)) (drop (Z.to_nat k) l).

(** *** [Math.ceil(a / b)] *)

Definition Math_ceil_div (a b : Z) : Z :=
  Qround.Qceiling (QArith_base.Qdiv (QArith_base.inject_Z a) (QArith_base.inject_Z b)).

End JS.

(** ** Promises and outbound calls *)

(** What a handler does to the outside: an HTTP GET through [axios], or a
    call of the translation service (always with source ['en'] and target
    ['es']).  Console output is not part of the model. *)
Inductive call :=
| HttpGet (url : string)
| TranslateCall (text : string).

(** A thrown value: [error.response.status] when the error is an HTTP
    error response, and [error.message]. *)
Record error := Error { err_status : option Z; err_message : string }.

Inductive outcome (A : Type) :=
| Resolved (value : A)
| Rejected (reason : error).
Arguments Resolved {A} value.
Arguments Rejected {A} reason.

(** An asynchronous computation, run to completion: the calls it issued
    and how it settled. *)
Definition async (A : Type) : Type := list call * outcome A.

Definition ret {A} (a : A) : async A := ([], Resolved a).

Definition throw {A} (e : error) : async A := ([], Rejected e).

Definition bind {A B} (m : async A) (k : A -> async B) : async B :=
  match m with
  | (log, Resolved a) => let '(log', r) := k a in (log ++ log', r)
  | (log, Rejected e) => (log, Rejected e)
  end.

(** [try { m } catch (error) { handler }] *)
Definition try_catch {A} (m : async A) (handler : error -> async A) : async A :=
  match m with
  | (log, Resolved a) => (log, Resolved a)
  | (log, Rejected e) => let '(log', r) := handler e in (log ++ log', r)
  end.

Notation "'await' x <- m ; k" := (bind m (fun x => k))
  (at level 10, x name, m at level 100, k at level 200).

(** [Promise.all]: every promise of the array is already running, so all of
    their calls are issued; the result is the array of values in the order
    of the input array, or a rejection as soon as one of them rejects (the
    leftmost one is reported here; no handler looks at which one it is
    beyond its message). Calls are listed task by task. *)
Fixpoint promise_all {A} (promises : list (async A)) : async (list A) :=
  match promises with
  | [] => ret []
  | (log, r) :: rest =>
      let '(log', rs) := promise_all rest in
      (log ++ log',
       match r, rs with
       | Resolved a, Resolved l => Resolved (a :: l)
       | Rejected e, _ => Rejected e
       | Resolved _, Rejected e => Rejected e
       end)
  end.

(** The bookkeeping inside [Promise.all], with the completion order made
    explicit: the promise at index [i] writes its value into slot [i] of the
    result array when it resolves; [order] lists the indices in the order in
    which the promises complete. The array is handed over once every slot
    is filled. *)
Definition fill_slot {A} (values : list A) (slots : list (option A)) (i : nat)
  : list (option A) :=
  match values !! i with
  | Some v => <[i := Some v]> slots
  | None => slots
  end.

Definition settle_in_order {A} (order : list nat) (values : list A)
  : list (option A) :=
  foldl (fill_slot values) (replicate (length values) None) order.

Definition promise_all_values {A} (order : list nat) (values : list A)
  : option (list A) :=
  mapM (fun slot => slot) (settle_in_order order values).

(** ** Data model *)

Record Department := { departmentId : Z; displayName : string }.

Record ArtObject := {
  objectID : Z;
  title : option string;
  culture : option string;
  dynasty : option string;
  primaryImage : option string;
  additionalImages : option (list string)
}.

Definition set_title (v : string) (obj : ArtObject) : ArtObject :=
  {| objectID := objectID obj; title := Some v; culture := culture obj;
     dynasty := dynasty obj; primaryImage := primaryImage obj;
     additionalImages := additionalImages obj |}.

Definition set_culture (v : string) (obj : ArtObject) : ArtObject :=
  {| objectID := objectID obj; title := title obj; culture := Some v;
     dynasty := dynasty obj; primaryImage := primaryImage obj;
     additionalImages := additionalImages obj |}.

Definition set_dynasty (v : string) (obj : ArtObject) : ArtObject :=
  {| objectID := objectID obj; title := title obj; culture := culture obj;
     dynasty := Some v; primaryImage := primaryImage obj;
     additionalImages := additionalImages obj |}.

(** [response.data] of the upstream search: [objectIDs] is [None] when it is
    not an array ([null] on no match), [total] may be missing. *)
Record SearchData := { objectIDs : option (list Z); total : option Z }.

(** [req.query] *)
Record Query := {
  query_departmentId : option string;
  query_keyword : option string;
  query_location : option string;
  query_page : option string
}.

(** The locals handed to the [results] view. *)
Record PageResult := {
  objects : list ArtObject;
  currentPage : Z;
  totalPages : Z;
  echo_departmentId : option string;
  echo_keyword : option string;
  echo_location : option string;
  message : option string
}.

Inductive locals :=
| IndexLocals (departments : list Department)
| ResultsLocals (page : PageResult).

(** What the handler sends: [res.render(view, data)] and [res.json(body)],
    both with the default status 200, or [res.status(status).send(body)]. *)
Inductive response :=
| Render (view : string) (data : locals)
| Json (body : list string)
| Send (status : Z) (body : string).

(** ** The outside world *)

(** The upstream collection API and the translation service, as oracles:
    what each call settles with. Within one request the answer to a call
    depends on the call alone, not on the moment it is made.
    - [departments_api]: [response.data.departments] of the departments GET;
    - [search_api url]: [response.data] of the search GET ([None] when
      falsy);
    - [objects_api url]: [response.data] of an object GET;
    - [translate_api text]: the [translation] field of what
      [translate({text, source: 'en', target: 'es'})] resolves to. *)
Record World := {
  departments_api : outcome (list Department);
  search_api : string -> outcome (option SearchData);
  objects_api : string -> outcome ArtObject;
  translate_api : string -> outcome string
}.

Definition departments_url : string :=
  "https://collectionapi.metmuseum.org/public/collection/v1/departments".

Definition search_base_url : string :=
  "https://collectionapi.metmuseum.org/public/collection/v1/search?hasImages=true".

Definition objects_url (id : string) : string :=
  "https://collectionapi.metmuseum.org/public/collection/v1/objects/" +:+ id.

Definition get_departments (w : World) : async (list Department) :=
  ([HttpGet departments_url], departments_api w).

Definition get_search (w : World) (url : string) : async (option SearchData) :=
  ([HttpGet url], search_api w url).

Definition get_object (w : World) (id : string) : async ArtObject :=
  ([HttpGet (objects_url id)], objects_api w (objects_url id)).

Definition translate (w : World) (text : string) : async string :=
  ([TranslateCall text], translate_api w text).

(** ** Route [/] *)

(** The callback of [departments.map] (lines 25-40): the translated name,
    or the English one when the translation throws. *)
Definition translate_department (w : World) (department : Department)
  : async Department :=
  try_catch
    (await translation <- translate w (displayName department);
     ret {| departmentId := departmentId department;
            displayName := translation |})
    (fun _ =>
     ret {| departmentId := departmentId department;
            displayName := displayName department |}).

Definition home_handler (w : World) : async response :=
  try_catch
    (await departments <- get_departments w;
     await translatedDepartments <-
       promise_all (map (translate_department w) departments);
     ret (Render "index" (IndexLocals translatedDepartments)))
    (fun _ => ret (Send 500 "Error al cargar departamentos.")).

(** ** Route [/search] *)

Definition limit : Z := 20.

(** [parseInt(req.query.page) || 1] (lines 56 and 154). *)
Definition page_of (req : Query) : Z :=
  JS.num_or (JS.parseInt (query_page req)) 1.

(** Lines 60-70: the upstream URL, grown by one [url += ...] per filter. *)
Definition search_url (departmentId keyword location : string) : string :=
  let url := search_base_url in
  let url :=
    if JS.truthy_string departmentId
    then url +:+ "&departmentId=" +:+ departmentId else url in
  let url :=
    if JS.truthy_string keyword then url +:+ "&q=" +:+ keyword else url in
  let url :=
    if JS.truthy_string location
    then url +:+ "&geoLocation=" +:+ location else url in
  url.

(** One [if (obj.f) { obj.f = (await translate(obj.f)).translation }]. *)
Definition translate_field (w : World) (get : ArtObject -> option string)
    (set : string -> ArtObject -> ArtObject) (obj : ArtObject)
  : async ArtObject :=
  if JS.truthy (get obj)
  then (await translation <- translate w (default "" (get obj));
        ret (set translation obj))
  else ret obj.

(** The callback of [objectIDs.map] (lines 89-113): [None] is [null]. The
    [catch] surrounds the fetch and the three translations alike. *)
Definition search_task (w : World) (id : Z) : async (option ArtObject) :=
  try_catch
    (await obj <- get_object w (JS.String_of_number id);
     await obj <- translate_field w title set_title obj;
     await obj <- translate_field w culture set_culture obj;
     await obj <- translate_field w dynasty set_dynasty obj;
     ret (Some obj))
    (fun _ => ret None).

(** The predicate of the filter on line 115:
    [obj !== null && obj.primaryImage]. *)
Definition displayable (r : option ArtObject) : option ArtObject :=
  match r with
  | Some obj => if JS.truthy (primaryImage obj) then Some obj else None
  | None => None
  end.

(** Line 76: the array of ids when [response.data] is truthy and
    [objectIDs] is a non-empty array; [None] on the short-circuit. *)
Definition found_ids (data : option SearchData) : option (list Z) :=
  match data with
  | Some d =>
      match objectIDs d with
      | Some (id :: ids) => Some (id :: ids)
      | _ => None
      end
  | None => None
  end.

Definition search_handler (w : World) (req : Query) : async response :=
  try_catch
    (let departmentId := JS.or_default (query_departmentId req) "" in
     let keyword := JS.or_default (query_keyword req) "" in
     let location := JS.or_default (query_location req) "" in
     let page := page_of req in
     let offset := (page - 1) * limit in
     let url := search_url departmentId keyword location in
     await data <- get_search w url;
     match found_ids data with
     | None =>
         ret (Render "results" (ResultsLocals
           {| objects := [];
              currentPage := page;
              totalPages := 0;
              echo_departmentId := Some departmentId;
              echo_keyword := Some keyword;
              echo_location := Some location;
              message := Some
                "No se encontraron resultados para los filtros aplicados." |}))
     | Some ids =>
         let objectIDs := JS.slice ids offset (offset + limit) in
         let promises := map (search_task w) objectIDs in
         await results <- promise_all promises;
         let objects := omap displayable results in
         let totalObjects := JS.num_or (data ≫= total) 0 in
         let totalPages := JS.Math_ceil_div totalObjects limit in
         ret (Render "results" (ResultsLocals
           {| objects := objects;
              currentPage := page;
              totalPages := totalPages;
              echo_departmentId := Some departmentId;
              echo_keyword := Some keyword;
              echo_location := Some location;
              message := None |}))
     end)
    (fun error =>
     ret (Send 500
       ("Error al recuperar los objetos de arte: " +:+ err_message error))).

(** ** Route [/object/:id/additional-images] *)

Definition additional_images_handler (w : World) (objectId : string)
  : async response :=
  try_catch
    (await object <- get_object w objectId;
     match additionalImages object with
     | Some (image :: images) => ret (Json (image :: images))
     | _ => ret (Json [])
     end)
    (fun _ => ret (Send 500 "Error al recuperar las imágenes adicionales.")).

(** ** Route [/results] *)

Definition itemsPerPage : Z := 10.

(** [index.js] calls [getAllObjectsFromAPI()] on line 159 but neither
    defines nor imports it: the file's only imports are express, path, url,
    axios and the translation package. The binding is therefore a parameter
    of the handler: [None] is the module as it stands, where evaluating the
    identifier throws a ReferenceError; [Some f] is the module completed
    with a function that lists all object ids, as the comment on line 158
    supposes. *)
Definition call_getAllObjectsFromAPI
    (getAllObjectsFromAPI : option (async (list Z))) : async (list Z) :=
  match getAllObjectsFromAPI with
  | Some f => f
  | None =>
      throw {| err_status := None;
               err_message := "getAllObjectsFromAPI is not defined" |}
  end.

(** The callback of [objectIDs.map] (lines 168-180): a 404 gives [null]
    ([None]), any other error is thrown again. *)
Definition results_task (w : World) (id : Z) : async (option ArtObject) :=
  try_catch
    (await obj <- get_object w (JS.String_of_number id);
     ret (Some obj))
    (fun error =>
     match err_status error with
     | Some 404 => ret None
     | _ => throw error
     end).

Definition results_handler (getAllObjectsFromAPI : option (async (list Z)))
    (w : World) (req : Query) : async response :=
  let page := page_of req in
  try_catch
    (await allObjects <- call_getAllObjectsFromAPI getAllObjectsFromAPI;
     let startIndex := (page - 1) * itemsPerPage in
     let endIndex := startIndex + itemsPerPage in
     let objectIDs := JS.slice allObjects startIndex endIndex in
     await validObjects <- promise_all (map (results_task w) objectIDs);
     let objectsToDisplay := omap (fun obj => obj) validObjects in
     let totalObjects := Z.of_nat (length allObjects) in
     let totalPages := JS.Math_ceil_div totalObjects itemsPerPage in
     ret (Render "results" (ResultsLocals
       {| objects := objectsToDisplay;
          currentPage := page;
          totalPages := totalPages;
          echo_departmentId := None;
          echo_keyword := None;
          echo_location := None;
          message := None |})))
    (fun _ => ret (Send 500 "Error al obtener resultados")).

(** The handler of the module as it stands. *)
Definition results_handler_as_shipped : World -> Query -> async response :=
  results_handler None.

(** ** Names for the pieces of a request that the statements refer to *)

(** The upstream URL that [search_handler] builds for a request. *)
Definition request_url (req : Query) : string :=
  search_url (JS.or_default (query_departmentId req) "")
             (JS.or_default (query_keyword req) "")
             (JS.or_default (query_location req) "").

(** The ids whose details [search_handler] and [results_handler] fetch. *)
Definition search_page_ids (req : Query) (ids : list Z) : list Z :=
  JS.slice ids ((page_of req - 1) * limit) ((page_of req - 1) * limit + limit).

Definition results_page_ids (req : Query) (allObjects : list Z) : list Z :=
  JS.slice allObjects ((page_of req - 1) * itemsPerPage)
           ((page_of req - 1) * itemsPerPage + itemsPerPage).

(** The half-open window [[offset, offset + size)] of a sequence, with
    [offset = (p - 1) * size]. *)
Definition page_window {A} (p size : Z) (l : list A) : list A :=
  take (Z.to_nat size) (drop (Z.to_nat ((p - 1) * size)) l).

(** [n] is the ceiling of [a / b]. *)
Definition is_ceiling (n a b : Z) : Prop := (n - 1) * b < a <= n * b.

(** The value a settled task contributes to the result array; a rejected
    task contributes none. *)
Definition task_value {A} (p : async (option A)) : option A :=
  match p.2 with
  | Resolved r => r
  | Rejected _ => None
  end.

(** The URLs requested and the texts sent to translation in a log. *)
Definition http_requests (log : list call) : list string :=
  omap (fun c => match c with HttpGet url => Some url | _ => None end) log.

Definition translations (log : list call) : list string :=
  omap (fun c => match c with TranslateCall t => Some t | _ => None end) log.

Definition detail_url (id : Z) : string := objects_url (JS.String_of_number id).

(** The object the upstream returns for an id, if the fetch succeeds. *)
Definition fetched (w : World) (id : Z) : option ArtObject :=
  match objects_api w (detail_url id) with
  | Resolved obj => Some obj
  | Rejected _ => None
  end.

(** The fetch of an id fails with a 404; with any other error. *)
Definition not_found (w : World) (id : Z) : Prop :=
  exists e, objects_api w (detail_url id) = Rejected e /\ err_status e = Some 404.

Definition fatal (w : World) (id : Z) : Prop :=
  exists e, objects_api w (detail_url id) = Rejected e /\ err_status e <> Some 404.


(** The object ids that an upstream search response carries. *)
Definition carried_ids (data : option SearchData) : list Z :=
  default [] (data ≫= objectIDs).

(** The search URL as the specification words it: the fixed
    [hasImages=true], then one query parameter per filter that is present,
    a filter being present when the request gives it a non-empty value. *)
Definition present (v : option string) : option string :=
  match v with
  | Some s => if decide (s = "") then None else Some s
  | None => None
  end.

Definition query_parameter (name : string) (v : option string) : string :=
  match present v with
  | Some s => "&" +:+ name +:+ "=" +:+ s
  | None => ""
  end.

Definition spec_search_url (req : Query) : string :=
  "https://collectionapi.metmuseum.org/public/collection/v1/search?hasImages=true"
  +:+ query_parameter "departmentId" (query_departmentId req)
  +:+ query_parameter "q" (query_keyword req)
  +:+ query_parameter "geoLocation" (query_location req).

(** The name under which [/] shows a department: its translation, or the
    upstream name when the translation fails. *)
Definition shown_department (w : World) (department : Department) : Department :=
  {| departmentId := departmentId department;
     displayName :=
       match translate_api w (displayName department) with
       | Resolved translation => translation
       | Rejected _ => displayName department
       end |}.

(** ** Sample worlds and requests, for the concrete instances below *)

(** The no-break space U+00A0, in UTF-8. *)
Definition nbsp : string :=
  String (ascii_of_nat 194) (String (ascii_of_nat 160) "").

(** A translation service that rejects every call. *)
Definition out_of_service (text : string) : outcome string :=
  Rejected {| err_status := None; err_message := "Too Many Requests" |}.

Definition vase (id : Z) (image : option string) : ArtObject :=
  {| objectID := id; title := Some "Vase"; culture := Some "Greek";
     dynasty := Some ""; primaryImage := image; additionalImages := None |}.

Definition http_error (status : Z) : error :=
  {| err_status := Some status;
     err_message := "Request failed with status code "
                    +:+ JS.String_of_number status |}.

Definition image_url : string := "https://images.metmuseum.org/CRDImages/1.jpg".

(** Object 1 has an image, 2 is gone (404), 3 has no image, the fetch of 4
    fails with a 500, and 5 to 45 have images. *)
Definition catalog : list (Z * outcome ArtObject) :=
  [ (1, Resolved (vase 1 (Some image_url)));
    (2, Rejected (http_error 404));
    (3, Resolved (vase 3 None));
    (4, Rejected (http_error 500)) ]
  ++ map (fun id => (id, Resolved (vase id (Some image_url)))) (seqZ 5 41).

Fixpoint lookup_catalog (entries : list (Z * outcome ArtObject)) (url : string)
  : outcome ArtObject :=
  match entries with
  | (id, r) :: rest =>
      if String.eqb url (detail_url id) then r else lookup_catalog rest url
  | [] => Rejected (http_error 404)
  end.

Definition to_spanish (text : string) : outcome string :=
  Resolved ("[es] " +:+ text).

Definition museum (ids : list Z) (translation : string -> outcome string)
  : World :=
  {| departments_api :=
       Resolved [ {| departmentId := 1; displayName := "American Decorative Arts" |};
                  {| departmentId := 6; displayName := "Asian Art" |} ];
     search_api := fun _ =>
       Resolved (Some {| objectIDs := Some ids;
                         total := Some (Z.of_nat (length ids)) |});
     objects_api := lookup_catalog catalog;
     translate_api := translation |}.

Definition request (departmentId keyword location page : option string) : Query :=
  {| query_departmentId := departmentId; query_keyword := keyword;
     query_location := location; query_page := page |}.

Definition translated_vase (id : Z) : ArtObject :=
  {| objectID := id; title := Some "[es] Vase"; culture := Some "[es] Greek";
     dynasty := Some ""; primaryImage := Some image_url;
     additionalImages := None |}.

(** ** Names used by the further properties *)

(** What [/search] makes of one text field: left as it is when falsy,
    replaced by its translation when the translation resolves. *)
Definition localized (w : World) (v : option string) : option string :=
  if JS.truthy v
  then match translate_api w (default "" v) with
       | Resolved translation => Some translation
       | Rejected _ => v
       end
  else v.

Definition translated_object (w : World) (obj : ArtObject) : ArtObject :=
  {| objectID := objectID obj;
     title := localized w (title obj);
     culture := localized w (culture obj);
     dynasty := localized w (dynasty obj);
     primaryImage := primaryImage obj;
     additionalImages := additionalImages obj |}.

(** The texts of an object that [/search] sends to translation: its truthy
    title, culture and dynasty, in this order. *)
Definition to_translate (obj : ArtObject) : list string :=
  omap (fun v : option string => if JS.truthy v then v else None)
       [title obj; culture obj; dynasty obj].

Definition translation_resolves (w : World) (text : string) : bool :=
  match translate_api w text with
  | Resolved _ => true
  | Rejected _ => false
  end.

(** The texts up to and including the first whose translation rejects. *)
Fixpoint until_first_rejection (w : World) (texts : list string) : list string :=
  match texts with
  | [] => []
  | text :: rest =>
      if translation_resolves w text
      then text :: until_first_rejection w rest
      else [text]
  end.

(** A string that cannot continue a decimal number: empty, or starting
    with a character that is not a decimal digit. *)
Definition digit_free_start (rest : string) : Prop :=
  match rest with
  | String c _ => JS.radix_digit 10 c = None
  | EmptyString => True
  end.

(** A numeral without a leading zero. *)
Definition leading_nonzero (d : Decimal.uint) : Prop :=
  match d with
  | Decimal.Nil | Decimal.D0 _ => False
  | _ => True
  end.

(** A request with the given page parameter and no filter. *)
Definition page_request (page : option string) : Query :=
  {| query_departmentId := None; query_keyword := None;
     query_location := None; query_page := page |}.

(** * Properties *)

(** ** JavaScript primitives *)

Lemma append_assoc (a b c : string) : (a +:+ b) +:+ c = a +:+ (b +:+ c).
Proof.
  induction a as [|x a IH]; [reflexivity|].
  unfold String.append; fold String.append. by f_equal.
Qed.

Lemma append_nil_r (a : string) : a +:+ "" = a.
Proof.
  induction a as [|x a IH]; [reflexivity|].
  unfold String.append; fold String.append. by f_equal.
Qed.

Lemma truthy_Some_nonempty (v : option string) :
  JS.truthy v = true <-> exists s, v = Some s /\ s <> "".
Proof.
  destruct v as [s|]; simpl; unfold JS.truthy_string.
  - rewrite negb_true_iff. split.
    + intros H. exists s. split; [reflexivity|].
      intros ->. now rewrite String.eqb_refl in H.
    + intros (s' & [= <-] & Hne). now apply String.eqb_neq.
  - split; [discriminate | intros (s & [=] & _)].
Qed.

(** With a non-negative offset, [slice] takes the window of the list that
    starts at the offset; past the end it is empty. *)
Lemma slice_window {A} (l : list A) (offset size : Z) :
  0 <= offset -> 0 <= size ->
  JS.slice l offset (offset + size)
  = take (Z.to_nat size) (drop (Z.to_nat offset) l).
Proof.
  intros Ho Hs. unfold JS.slice, JS.relative_index.
  destruct (Z.ltb_spec offset 0) as [|_]; [lia|].
  destruct (Z.ltb_spec (offset + size) 0) as [|_]; [lia|].
  set (len := Z.of_nat (length l)).
  destruct (Z.le_gt_cases offset len) as [Hin|Hout].
  - rewrite (Z.min_l offset len) by lia.
    destruct (Z.le_gt_cases (offset + size) len) as [Hfit|Hcut].
    + rewrite Z.min_l by lia. f_equal. lia.
    + rewrite Z.min_r by lia.
      rewrite !take_ge; [reflexivity | |]; rewrite length_drop; subst len; lia.
  - rewrite (Z.min_r offset len), (Z.min_r (offset + size) len) by lia.
    rewrite Z.sub_diag. simpl.
    rewrite (drop_ge l (Z.to_nat offset)) by (subst len; lia).
    now rewrite take_nil.
Qed.

(** [Math.ceil(a / b)] for a positive divisor, in integer arithmetic. *)
Lemma Math_ceil_div_pos (a b : Z) :
  0 < b -> JS.Math_ceil_div a b = - ((- a) / b).
Proof.
  intros Hb. destruct b as [|p|p]; try lia.
  unfold JS.Math_ceil_div, Qround.Qceiling, Qround.Qfloor.
  unfold QArith_base.Qdiv, QArith_base.Qinv, QArith_base.Qmult,
    QArith_base.Qopp, QArith_base.inject_Z.
  simpl QArith_base.Qnum. simpl QArith_base.Qden.
  now rewrite Z.mul_1_r, Pos.mul_1_l.
Qed.

Lemma Math_ceil_div_is_ceiling (a b : Z) :
  0 < b -> is_ceiling (JS.Math_ceil_div a b) a b.
Proof.
  intros Hb. rewrite Math_ceil_div_pos by assumption. unfold is_ceiling.
  pose proof (Z.div_mod (- a) b ltac:(lia)) as Hdm.
  pose proof (Z.mod_pos_bound (- a) b Hb) as Hm.
  nia.
Qed.

Lemma is_ceiling_unique (n m a b : Z) :
  0 < b -> is_ceiling n a b -> is_ceiling m a b -> n = m.
Proof. unfold is_ceiling. intros Hb Hn Hm. nia. Qed.


Lemma page_of_unfold (req : Query) :
  page_of req
  = match JS.parseInt (query_page req) with
    | Some n => if n =? 0 then 1 else n
    | None => 1
    end.
Proof. reflexivity. Qed.

(** ** Promises *)

Lemma try_catch_total {A} (m : async A) (d : A) :
  (try_catch m (fun _ => ret d)).2
  = Resolved (match m.2 with Resolved a => a | Rejected _ => d end).
Proof. destruct m as [log [a|e]]; reflexivity. Qed.

Lemma promise_all_log {A} (promises : list (async A)) :
  (promise_all promises).1 = concat (map fst promises).
Proof.
  induction promises as [|[log r] rest IH]; [reflexivity|].
  simpl. destruct (promise_all rest) as [log' rs]. simpl in *.
  now rewrite IH.
Qed.

Lemma promise_all_resolved {A} (promises : list (async A)) (values : list A) :
  Forall2 (fun p v => p.2 = Resolved v) promises values ->
  (promise_all promises).2 = Resolved values.
Proof.
  induction 1 as [|[log r] v rest vs Hr _ IH]; [reflexivity|].
  simpl in *. destruct (promise_all rest) as [log' rs]. simpl in *.
  now subst.
Qed.

Lemma promise_all_rejected {A} (promises : list (async A)) :
  Exists (fun p => exists e, p.2 = Rejected e) promises ->
  exists e, (promise_all promises).2 = Rejected e.
Proof.
  induction promises as [|[log r] rest IH]; intros Hex.
  - inversion Hex.
  - simpl. destruct (promise_all rest) as [log' rs] eqn:Hrest. simpl in *.
    destruct r as [a|e]; [|eauto].
    apply Exists_cons in Hex as [[e He]|Hex]; [discriminate He|].
    destruct (IH Hex) as [e ->]. eauto.
Qed.

(** Tasks that never reject: [Promise.all] returns their values, in the
    order of the tasks. *)
Lemma promise_all_task_values {A} (tasks : list (async (option A))) :
  Forall (fun p => exists r, p.2 = Resolved r) tasks ->
  (promise_all tasks).2 = Resolved (map task_value tasks).
Proof.
  intros Hall. apply promise_all_resolved.
  induction Hall as [|p rest [r Hr] _ IH]; constructor; [|exact IH].
  unfold task_value. now rewrite Hr.
Qed.

Lemma fill_slot_length {A} (values : list A) (slots : list (option A)) (i : nat) :
  length (fill_slot values slots i) = length slots.
Proof. unfold fill_slot. destruct (values !! i); [apply length_insert | reflexivity]. Qed.

(** Slot [i] after the promises listed in [order] have completed. *)
Lemma foldl_fill_slot_lookup {A} (values : list A) (order : list nat)
    (slots : list (option A)) (i : nat) :
  length slots = length values ->
  foldl (fill_slot values) slots order !! i
  = if decide (i ∈ order) then Some <$> values !! i else slots !! i.
Proof.
  revert slots. induction order as [|j order IH]; intros slots Hlen; simpl.
  - destruct (decide (i ∈ [])) as [Hin|_]; [|reflexivity]. by inversion Hin.
  - rewrite IH by (now rewrite fill_slot_length).
    destruct (decide (i ∈ order)) as [Hin|Hnin].
    + rewrite decide_True by (now right). reflexivity.
    + destruct (decide (i = j)) as [->|Hne].
      * rewrite decide_True by (now left). unfold fill_slot.
        destruct (values !! j) as [v|] eqn:Hv; simpl.
        -- apply list_lookup_insert_eq. rewrite Hlen.
           now apply lookup_lt_Some in Hv.
        -- apply lookup_ge_None. rewrite Hlen. now apply lookup_ge_None.
      * rewrite decide_False by (intros [?|?]%elem_of_cons; congruence).
        unfold fill_slot. destruct (values !! j); [|reflexivity].
        now apply list_lookup_insert_ne.
Qed.

(** Once every promise has completed, in whatever order, the result array
    holds the values in the order of the input array. *)
Lemma settle_in_order_complete {A} (order : list nat) (values : list A) :
  (forall i, (i < length values)%nat -> i ∈ order) ->
  settle_in_order order values = Some <$> values.
Proof.
  intros Hall. apply list_eq. intros i. unfold settle_in_order.
  rewrite foldl_fill_slot_lookup by apply length_replicate.
  rewrite list_lookup_fmap.
  destruct (decide (i ∈ order)) as [_|Hnin]; [reflexivity|].
  destruct (decide (i < length values)%nat) as [Hlt|Hge].
  - now apply Hall in Hlt.
  - rewrite (proj2 (lookup_ge_None values i)) by lia. simpl.
    apply lookup_ge_None. rewrite length_replicate. lia.
Qed.

Lemma promise_all_values_permutation {A} (order : list nat) (values : list A) :
  order ≡ₚ seq 0 (length values) ->
  promise_all_values order values = Some values.
Proof.
  intros Hperm. unfold promise_all_values.
  rewrite settle_in_order_complete.
  - now apply mapM_fmap_Some.
  - intros i Hi. rewrite Hperm. apply elem_of_seq. lia.
Qed.

(** ** The per-id tasks *)

Lemma search_task_resolves (w : World) (id : Z) :
  (search_task w id).2 = Resolved (task_value (search_task w id)).
Proof.
  unfold task_value, search_task. rewrite try_catch_total.
  destruct (_ : async (option ArtObject)) as [log [r|e]]; reflexivity.
Qed.

(** A rejected fetch, whatever its status, makes the task give [null]. *)
Lemma search_task_fetch_rejected (w : World) (id : Z) (e : error) :
  objects_api w (detail_url id) = Rejected e ->
  search_task w id = ([HttpGet (detail_url id)], Resolved None).
Proof.
  intros He. unfold search_task, get_object, detail_url in *. simpl.
  now rewrite He.
Qed.

Lemma translate_field_cases (w : World) get set (obj : ArtObject) :
  (JS.truthy (get obj) = false /\ translate_field w get set obj = ret obj)
  \/ (exists text, get obj = Some text /\ text <> "" /\
      translate_field w get set obj
      = ([TranslateCall text],
         match translate_api w text with
         | Resolved t => Resolved (set t obj)
         | Rejected e => Rejected e
         end)).
Proof.
  unfold translate_field.
  destruct (JS.truthy (get obj)) eqn:Ht; [right | left; split; reflexivity].
  apply truthy_Some_nonempty in Ht as (text & Hget & Hne).
  exists text. rewrite Hget. simpl. repeat split; try assumption.
  unfold translate, bind, ret. destruct (translate_api w text); reflexivity.
Qed.

(** Case analysis on one [translate_field] inside a task. *)
Ltac field_cases w get set obj :=
  let text := fresh "text" in
  let Hget := fresh "Hget" in
  let Hne := fresh "Hne" in
  let Htr := fresh "Htr" in
  destruct (translate_field_cases w get set obj)
    as [[_ ->]|(text & Hget & Hne & ->)];
  [ simpl
  | destruct (translate_api w text) eqn:Htr; simpl ].


(** A task fetches the details of its own id and nothing else. *)
Lemma search_task_fetches (w : World) (id : Z) :
  http_requests (search_task w id).1 = [detail_url id].
Proof.
  unfold search_task, get_object. fold (detail_url id).
  destruct (objects_api w (detail_url id)) as [obj|e]; simpl; [|reflexivity].
  field_cases w title set_title obj;
  try match goal with |- context [translate_field w culture set_culture ?o] =>
    field_cases w culture set_culture o end;
  try match goal with |- context [translate_field w dynasty set_dynasty ?o] =>
    field_cases w dynasty set_dynasty o end;
  reflexivity.
Qed.


Lemma results_task_found (w : World) (id : Z) (obj : ArtObject) :
  objects_api w (detail_url id) = Resolved obj ->
  results_task w id = ([HttpGet (detail_url id)], Resolved (Some obj)).
Proof.
  intros H. unfold results_task, get_object. fold (detail_url id).
  now rewrite H.
Qed.

Lemma results_task_404 (w : World) (id : Z) (e : error) :
  objects_api w (detail_url id) = Rejected e -> err_status e = Some 404 ->
  results_task w id = ([HttpGet (detail_url id)], Resolved None).
Proof.
  intros H H404. unfold results_task, get_object. fold (detail_url id).
  rewrite H. simpl. now rewrite H404.
Qed.

Lemma results_task_fatal (w : World) (id : Z) (e : error) :
  objects_api w (detail_url id) = Rejected e -> err_status e <> Some 404 ->
  results_task w id = ([HttpGet (detail_url id)], Rejected e).
Proof.
  intros H Hne. unfold results_task, get_object. fold (detail_url id).
  rewrite H. simpl.
  destruct (err_status e) as [[|p|p]|] eqn:Hs; try reflexivity.
  destruct (decide (p = 404%positive)) as [->|Hp]; [congruence|].
  repeat (destruct p as [p|p|]; try reflexivity); congruence.
Qed.

Lemma results_task_log (w : World) (id : Z) :
  (results_task w id).1 = [HttpGet (detail_url id)].
Proof.
  unfold results_task, get_object. fold (detail_url id).
  destruct (objects_api w (detail_url id)) as [obj|e]; simpl; [reflexivity|].
  destruct (err_status e) as [[|p|p]|]; try reflexivity.
  repeat (destruct p as [p|p|]; try reflexivity).
Qed.

(** ** The handlers, case by case *)

Lemma omap_map {A B C} (f : B -> option C) (g : A -> B) (l : list A) :
  omap f (map g l) = omap (fun x => f (g x)) l.
Proof.
  induction l as [|x l IH]; [reflexivity|].
  csimpl. now rewrite IH.
Qed.

Lemma search_tasks_resolved (w : World) (ids : list Z) :
  (promise_all (map (search_task w) ids)).2
  = Resolved (map (fun id => task_value (search_task w id)) ids).
Proof.
  rewrite promise_all_task_values.
  - now rewrite map_map.
  - apply Forall_map, Forall_forall. intros id _. simpl.
    eexists. apply search_task_resolves.
Qed.

(** [/search] when the upstream search carries ids. *)
Lemma search_handler_found (w : World) (req : Query)
    (data : option SearchData) (ids : list Z) :
  search_api w (request_url req) = Resolved data ->
  found_ids data = Some ids ->
  search_handler w req
  = (HttpGet (request_url req)
       :: (promise_all (map (search_task w) (search_page_ids req ids))).1,
     Resolved (Render "results" (ResultsLocals
       {| objects :=
            omap (fun id => displayable (task_value (search_task w id)))
                 (search_page_ids req ids);
          currentPage := page_of req;
          totalPages := JS.Math_ceil_div (JS.num_or (data ≫= total) 0) limit;
          echo_departmentId := Some (JS.or_default (query_departmentId req) "");
          echo_keyword := Some (JS.or_default (query_keyword req) "");
          echo_location := Some (JS.or_default (query_location req) "");
          message := None |}))).
Proof.
  intros Hsearch Hfound. unfold search_handler. cbv zeta.
  change (search_url _ _ _) with (request_url req).
  unfold get_search. rewrite Hsearch. cbn [bind]. rewrite Hfound.
  change (JS.slice ids _ _) with (search_page_ids req ids).
  pose proof (search_tasks_resolved w (search_page_ids req ids)) as Hvalues.
  destruct (promise_all (map (search_task w) (search_page_ids req ids)))
    as [log rs]. simpl in Hvalues. subst rs.
  cbn [bind ret try_catch fst snd]. rewrite app_nil_r, omap_map.
  reflexivity.
Qed.

(** [/search] when the upstream search carries no ids: line 76. *)
Lemma search_handler_empty (w : World) (req : Query) (data : option SearchData) :
  search_api w (request_url req) = Resolved data ->
  found_ids data = None ->
  search_handler w req
  = ([HttpGet (request_url req)],
     Resolved (Render "results" (ResultsLocals
       {| objects := [];
          currentPage := page_of req;
          totalPages := 0;
          echo_departmentId := Some (JS.or_default (query_departmentId req) "");
          echo_keyword := Some (JS.or_default (query_keyword req) "");
          echo_location := Some (JS.or_default (query_location req) "");
          message := Some
            "No se encontraron resultados para los filtros aplicados." |}))).
Proof.
  intros Hsearch Hfound. unfold search_handler. cbv zeta.
  change (search_url _ _ _) with (request_url req).
  unfold get_search. rewrite Hsearch. cbn [bind]. rewrite Hfound.
  reflexivity.
Qed.

(** [/search] when the upstream search itself fails: the outer [catch]. *)
Lemma search_handler_upstream_error (w : World) (req : Query) (e : error) :
  search_api w (request_url req) = Rejected e ->
  search_handler w req
  = ([HttpGet (request_url req)],
     Resolved (Send 500
       ("Error al recuperar los objetos de arte: " +:+ err_message e))).
Proof.
  intros Hsearch. unfold search_handler. cbv zeta.
  change (search_url _ _ _) with (request_url req).
  unfold get_search. rewrite Hsearch. reflexivity.
Qed.

(** [/results] in the module as it stands: the ReferenceError is caught by
    the handler's own [catch]. *)
Lemma results_handler_unbound (w : World) (req : Query) :
  results_handler None w req
  = ([], Resolved (Send 500 "Error al obtener resultados")).
Proof. reflexivity. Qed.

Lemma results_handler_listing_error (w : World) (req : Query)
    (log0 : list call) (e : error) :
  results_handler (Some (log0, Rejected e)) w req
  = (log0, Resolved (Send 500 "Error al obtener resultados")).
Proof. unfold results_handler. simpl. now rewrite app_nil_r. Qed.

(** [/results] fetches the details of the ids of the page, whatever comes
    of them. *)
Lemma results_handler_log getAll (w : World) (req : Query)
    (log0 : list call) (allObjects : list Z) :
  getAll = Some (log0, Resolved allObjects) ->
  (results_handler getAll w req).1
  = log0 ++ map (fun id => HttpGet (detail_url id)) (results_page_ids req allObjects).
Proof.
  intros ->. unfold results_handler. cbv zeta. cbn [call_getAllObjectsFromAPI bind].
  change (JS.slice allObjects _ _) with (results_page_ids req allObjects).
  pose proof (promise_all_log (map (results_task w) (results_page_ids req allObjects)))
    as Hlog.
  destruct (promise_all (map (results_task w) (results_page_ids req allObjects)))
    as [log [values|e]]; simpl in *; subst log; rewrite app_nil_r; f_equal;
    induction (results_page_ids req allObjects) as [|id l IH]; simpl;
    try reflexivity; now rewrite results_task_log, IH.
Qed.

(** [/results] when no fetch of the page fails with anything but a 404. *)
Lemma results_handler_rendered getAll (w : World) (req : Query)
    (log0 : list call) (allObjects : list Z) :
  getAll = Some (log0, Resolved allObjects) ->
  Forall (fun id => ~ fatal w id) (results_page_ids req allObjects) ->
  (results_handler getAll w req).2
  = Resolved (Render "results" (ResultsLocals
      {| objects := omap (fetched w) (results_page_ids req allObjects);
         currentPage := page_of req;
         totalPages :=
           JS.Math_ceil_div (Z.of_nat (length allObjects)) itemsPerPage;
         echo_departmentId := None;
         echo_keyword := None;
         echo_location := None;
         message := None |})).
Proof.
  intros -> Hok. unfold results_handler. cbv zeta.
  cbn [call_getAllObjectsFromAPI bind].
  change (JS.slice allObjects _ _) with (results_page_ids req allObjects).
  assert ((promise_all (map (results_task w) (results_page_ids req allObjects))).2
          = Resolved (map (fetched w) (results_page_ids req allObjects))) as Hvalues.
  { apply promise_all_resolved.
    induction Hok as [|id l Hid _ IH]; constructor; [|exact IH].
    unfold fetched.
    destruct (objects_api w (detail_url id)) as [obj|e] eqn:Hfetch.
    - now rewrite (results_task_found w id obj).
    - destruct (decide (err_status e = Some 404)) as [H404|Hne].
      + now rewrite (results_task_404 w id e).
      + exfalso. apply Hid. now exists e. }
  destruct (promise_all (map (results_task w) (results_page_ids req allObjects)))
    as [log rs]. simpl in Hvalues. subst rs.
  cbn [bind ret try_catch fst snd].
  now rewrite omap_map.
Qed.

(** [/results] when some fetch of the page fails with another error. *)
Lemma results_handler_fatal getAll (w : World) (req : Query)
    (log0 : list call) (allObjects : list Z) :
  getAll = Some (log0, Resolved allObjects) ->
  Exists (fatal w) (results_page_ids req allObjects) ->
  (results_handler getAll w req).2
  = Resolved (Send 500 "Error al obtener resultados").
Proof.
  intros -> Hfatal. unfold results_handler. cbv zeta.
  cbn [call_getAllObjectsFromAPI bind].
  change (JS.slice allObjects _ _) with (results_page_ids req allObjects).
  destruct (promise_all_rejected
              (map (results_task w) (results_page_ids req allObjects)))
    as [e He].
  { apply Exists_fmap. eapply Exists_impl; [exact Hfatal|].
    intros id (e & Hfetch & Hne). exists e.
    now rewrite (results_task_fatal w id e). }
  destruct (promise_all (map (results_task w) (results_page_ids req allObjects)))
    as [log rs]. simpl in He. subst rs.
  reflexivity.
Qed.

(** ** Concrete runs *)

Example parseInt_examples :
  JS.parseInt (Some "2") = Some 2 /\ JS.parseInt (Some " 12px") = Some 12 /\
  JS.parseInt (Some "-3") = Some (-3) /\ JS.parseInt (Some "0x1F") = Some 31 /\
  JS.parseInt (Some "abc") = None /\ JS.parseInt (Some "") = None /\
  JS.parseInt None = None /\ JS.parseInt (Some "0") = Some 0.
Proof. repeat split; reflexivity. Qed.

Example parseInt_white_space :
  JS.parseInt (Some (nbsp +:+ "2")) = Some 2 /\
  page_of (request None None None (Some (nbsp +:+ "2"))) = 2 /\
  JS.parseInt (Some (String (ascii_of_nat 239) (String (ascii_of_nat 187)
                      (String (ascii_of_nat 191) " 7")))) = Some 7 /\
  JS.parseInt (Some (String (ascii_of_nat 226) (String (ascii_of_nat 128)
                      (String (ascii_of_nat 139) "7")))) = None.
Proof. repeat split; reflexivity. Qed.

Example slice_examples :
  JS.slice [1; 2; 3; 4; 5] 1 3 = [2; 3] /\ JS.slice [1; 2; 3] 2 10 = [3] /\
  JS.slice [1; 2; 3] 5 8 = [] /\ JS.slice [1; 2; 3; 4] (-2) 4 = [3; 4].
Proof. repeat split; reflexivity. Qed.

Example ceil_examples :
  JS.Math_ceil_div 45 20 = 3 /\ JS.Math_ceil_div 40 20 = 2 /\
  JS.Math_ceil_div 0 20 = 0 /\ JS.Math_ceil_div 1 10 = 1 /\
  JS.String_of_number 436535 = "436535".
Proof. repeat split; reflexivity. Qed.

Example search_first_page :
  (search_handler (museum (seqZ 1 45) to_spanish)
     (request None (Some "vase") None None)).2
  = Resolved (Render "results" (ResultsLocals
      {| objects := translated_vase 1 :: map translated_vase (seqZ 5 16);
         currentPage := 1; totalPages := 3;
         echo_departmentId := Some ""; echo_keyword := Some "vase";
         echo_location := Some ""; message := None |})).
Proof. vm_compute. reflexivity. Qed.

Example home_translated :
  home_handler (museum [] to_spanish)
  = ([HttpGet departments_url;
      TranslateCall "American Decorative Arts"; TranslateCall "Asian Art"],
     Resolved (Render "index" (IndexLocals
       [ {| departmentId := 1; displayName := "[es] American Decorative Arts" |};
         {| departmentId := 6; displayName := "[es] Asian Art" |} ]))).
Proof. vm_compute. reflexivity. Qed.

(** ** Pagination *)

(** The window of page [p] holds the elements at the indices
    [offset, offset + size) of the sequence, where [offset = (p - 1) * size]. *)
Lemma page_window_lookup {A} (p size : Z) (l : list A) (i : nat) :
  page_window p size l !! i
  = if decide (i < Z.to_nat size)%nat
    then l !! (Z.to_nat ((p - 1) * size) + i)%nat else None.
Proof.
  unfold page_window. destruct (decide (i < Z.to_nat size)%nat) as [Hlt|Hge].
  - rewrite lookup_take_lt by assumption. apply lookup_drop.
  - apply lookup_take_ge. lia.
Qed.

Lemma search_page_ids_window (req : Query) (ids : list Z) :
  1 <= page_of req ->
  search_page_ids req ids = page_window (page_of req) limit ids.
Proof.
  intros Hp. unfold search_page_ids, page_window.
  apply slice_window; unfold limit; lia.
Qed.

Lemma results_page_ids_window (req : Query) (allObjects : list Z) :
  1 <= page_of req ->
  results_page_ids req allObjects
  = page_window (page_of req) itemsPerPage allObjects.
Proof.
  intros Hp. unfold results_page_ids, page_window.
  apply slice_window; unfold itemsPerPage; lia.
Qed.

Lemma search_tasks_requests (w : World) (ids : list Z) :
  http_requests (promise_all (map (search_task w) ids)).1 = map detail_url ids.
Proof.
  rewrite promise_all_log. unfold http_requests.
  induction ids as [|id ids IH]; [reflexivity|].
  simpl. rewrite omap_app. fold (http_requests (search_task w id).1).
  rewrite search_task_fetches. simpl. now f_equal.
Qed.

(** What [/results] renders, whenever it renders. *)
Lemma results_handler_page getAll (w : World) (req : Query)
    (log0 : list call) (allObjects : list Z) (view : string) (page : PageResult) :
  getAll = Some (log0, Resolved allObjects) ->
  (results_handler getAll w req).2 = Resolved (Render view (ResultsLocals page)) ->
  currentPage page = page_of req /\
  totalPages page = JS.Math_ceil_div (Z.of_nat (length allObjects)) itemsPerPage /\
  exists values,
    (promise_all (map (results_task w) (results_page_ids req allObjects))).2
    = Resolved values /\
    objects page = omap (fun obj => obj) values.
Proof.
  intros ->. unfold results_handler. cbv zeta.
  cbn [call_getAllObjectsFromAPI bind].
  change (JS.slice allObjects _ _) with (results_page_ids req allObjects).
  destruct (promise_all (map (results_task w) (results_page_ids req allObjects)))
    as [log [values|e]]; cbn [bind ret try_catch fst snd]; [|discriminate].
  intros [= _ <-]. simpl. eauto.
Qed.

(** C4. For every page number p >= 1, the offset is (p - 1) * pageSize and
    the ids whose details are fetched are those at the indices
    [offset, offset + pageSize) of the id sequence; the rendered totalPages
    is the ceiling of total / pageSize. On [/search] (where the search
    returned ids) the page size is 20 and the total is the one upstream
    reports. On [/results] the page size is 10 and the total is the length
    of the id listing: lines 161 to 193 are reached only with
    [getAllObjectsFromAPI] supplied, and then, when no fetch of the page
    fails with anything but a 404, the page is rendered with that slice and
    that totalPages; in the module as it stands the handler answers 500
    before taking any slice. In particular total 45 with page size 20 gives
    3 pages, and page 2 gives offset 20. *)
Theorem C4_pagination (w : World) (req : Query) (data : option SearchData)
    (ids : list Z) (log0 : list call) (allObjects : list Z) :
  1 <= page_of req ->
  search_api w (request_url req) = Resolved data ->
  found_ids data = Some ids ->
  Forall (fun id => ~ fatal w id) (results_page_ids req allObjects) ->
  (search_page_ids req ids = page_window (page_of req) 20 ids /\
   (forall (i : nat) (id : Z),
      search_page_ids req ids !! i = Some id <->
      (i < 20)%nat /\ ids !! (Z.to_nat ((page_of req - 1) * 20) + i)%nat = Some id) /\
   http_requests (search_handler w req).1
   = request_url req :: map detail_url (page_window (page_of req) 20 ids) /\
   exists page,
     (search_handler w req).2 = Resolved (Render "results" (ResultsLocals page)) /\
     currentPage page = page_of req /\
     is_ceiling (totalPages page) (JS.num_or (data ≫= total) 0) 20) /\
  (results_page_ids req allObjects = page_window (page_of req) 10 allObjects /\
   (forall (i : nat) (id : Z),
      results_page_ids req allObjects !! i = Some id <->
      (i < 10)%nat /\
      allObjects !! (Z.to_nat ((page_of req - 1) * 10) + i)%nat = Some id) /\
   (results_handler (Some (log0, Resolved allObjects)) w req).1
   = log0 ++ map (fun id => HttpGet (detail_url id))
                 (page_window (page_of req) 10 allObjects) /\
   exists page,
     (results_handler (Some (log0, Resolved allObjects)) w req).2
     = Resolved (Render "results" (ResultsLocals page)) /\
     currentPage page = page_of req /\
     is_ceiling (totalPages page) (Z.of_nat (length allObjects)) 10 /\
     objects page = omap (fetched w) (page_window (page_of req) 10 allObjects)) /\
  results_handler_as_shipped w req
  = ([], Resolved (Send 500 "Error al obtener resultados")) /\
  JS.Math_ceil_div 45 20 = 3 /\ (2 - 1) * limit = 20.
Proof.
  intros Hp Hsearch Hfound Hok.
  pose proof (search_page_ids_window req ids Hp) as Hs.
  pose proof (results_page_ids_window req allObjects Hp) as Hr.
  unfold limit in Hs. unfold itemsPerPage in Hr.
  split; [|split; [|split; [reflexivity|split; reflexivity]]].
  - split; [exact Hs|]. split; [|split].
    + intros i id. rewrite Hs, page_window_lookup.
      change (Z.to_nat 20) with 20%nat.
      destruct (decide (i < 20)%nat); [tauto|]. split; [discriminate | tauto].
    + rewrite (search_handler_found w req data ids Hsearch Hfound).
      cbn [fst]. unfold http_requests at 1. cbn [omap list_omap].
      fold (http_requests
              (promise_all (map (search_task w) (search_page_ids req ids))).1).
      now rewrite search_tasks_requests, Hs.
    + rewrite (search_handler_found w req data ids Hsearch Hfound).
      eexists. split; [reflexivity|]. split; [reflexivity|]. simpl.
      now apply Math_ceil_div_is_ceiling.
  - split; [exact Hr|]. split; [|split].
    + intros i id. rewrite Hr, page_window_lookup.
      change (Z.to_nat 10) with 10%nat.
      destruct (decide (i < 10)%nat); [tauto|]. split; [discriminate | tauto].
    + rewrite (results_handler_log _ w req log0 allObjects eq_refl).
      now rewrite Hr.
    + rewrite (results_handler_rendered _ w req log0 allObjects eq_refl Hok).
      eexists. split; [reflexivity|]. split; [reflexivity|]. cbn.
      split; [now apply Math_ceil_div_is_ceiling | now rewrite Hr].
Qed.

Lemma C4_pagination_witness :
  1 <= page_of (request None None None (Some "2")) /\
  search_api (museum (seqZ 1 45) to_spanish)
    (request_url (request None None None (Some "2")))
  = Resolved (Some {| objectIDs := Some (seqZ 1 45); total := Some 45 |}) /\
  found_ids (Some {| objectIDs := Some (seqZ 1 45); total := Some 45 |})
  = Some (seqZ 1 45) /\
  Forall (fun id => ~ fatal (museum (seqZ 1 45) to_spanish) id)
    (results_page_ids (request None None None (Some "2")) (seqZ 5 41)) /\
  search_page_ids (request None None None (Some "2")) (seqZ 1 45) = seqZ 21 20 /\
  http_requests
    (search_handler (museum (seqZ 1 45) to_spanish)
       (request None None None (Some "2"))).1
  = request_url (request None None None (Some "2"))
      :: map detail_url (seqZ 21 20) /\
  (exists page,
     (search_handler (museum (seqZ 1 45) to_spanish)
        (request None None None (Some "2"))).2
     = Resolved (Render "results" (ResultsLocals page)) /\
     currentPage page = 2 /\ totalPages page = 3) /\
  results_page_ids (request None None None (Some "2")) (seqZ 5 41) = seqZ 15 10 /\
  exists page,
    (results_handler (Some ([], Resolved (seqZ 5 41)))
       (museum (seqZ 1 45) to_spanish) (request None None None (Some "2"))).2
    = Resolved (Render "results" (ResultsLocals page)) /\
    currentPage page = 2 /\ totalPages page = 5 /\
    objects page = map (fun id => vase id (Some image_url)) (seqZ 15 10).
Proof.
  assert (1 <= page_of (request None None None (Some "2"))) as Hp
    by (vm_compute; discriminate).
  assert (search_api (museum (seqZ 1 45) to_spanish)
            (request_url (request None None None (Some "2")))
          = Resolved (Some {| objectIDs := Some (seqZ 1 45); total := Some 45 |}))
    as Hsearch by reflexivity.
  assert (found_ids (Some {| objectIDs := Some (seqZ 1 45); total := Some 45 |})
          = Some (seqZ 1 45)) as Hfound by reflexivity.
  assert (Forall (fun id => ~ fatal (museum (seqZ 1 45) to_spanish) id)
            (results_page_ids (request None None None (Some "2")) (seqZ 5 41)))
    as Hok.
  { change (results_page_ids _ _) with [15; 16; 17; 18; 19; 20; 21; 22; 23; 24].
    repeat constructor; intros (e & Hfetch & _); vm_compute in Hfetch;
      discriminate Hfetch. }
  destruct (C4_pagination (museum (seqZ 1 45) to_spanish)
              (request None None None (Some "2")) _ _ [] (seqZ 5 41)
              Hp Hsearch Hfound Hok)
    as ((Hs & _ & Hlog & p1 & Hp1 & Hc1 & Ht1)
        & (Hr & _ & _ & p2 & Hp2 & Hc2 & Ht2 & Ho2) & _).
  split; [exact Hp|]. split; [exact Hsearch|]. split; [exact Hfound|].
  split; [exact Hok|].
  split; [rewrite Hs; reflexivity|].
  split; [rewrite Hlog; reflexivity|].
  split.
  { exists p1. split; [exact Hp1|]. split; [exact Hc1|].
    unfold is_ceiling in Ht1. vm_compute (JS.num_or _ _) in Ht1. lia. }
  split; [rewrite Hr; reflexivity|].
  exists p2. split; [exact Hp2|]. split; [exact Hc2|]. split.
  - unfold is_ceiling in Ht2. vm_compute (Z.of_nat _) in Ht2. lia.
  - rewrite Ho2. vm_compute. reflexivity.
Defined.



(** ** The empty search *)

Lemma found_ids_None (data : option SearchData) :
  found_ids data = None <-> carried_ids data = [].
Proof.
  unfold found_ids, carried_ids.
  destruct data as [[[[|id ids]|] t]|]; simpl; split;
    intros H; try reflexivity; discriminate H.
Qed.

(** The search URL is never the URL of an object's details. *)
Lemma request_url_base (req : Query) :
  exists rest, request_url req = search_base_url +:+ rest.
Proof.
  unfold request_url, search_url.
  destruct (JS.truthy_string _); destruct (JS.truthy_string _);
    destruct (JS.truthy_string _);
    rewrite ?append_assoc; eexists; reflexivity.
Qed.

Lemma request_url_not_detail (req : Query) (id : string) :
  request_url req <> objects_url id.
Proof.
  destruct (request_url_base req) as [rest ->].
  unfold search_base_url, objects_url. intros H.
  vm_compute in H. discriminate H.
Qed.

(** C6. When the upstream search response carries zero object ids (no
    data, [objectIDs] not an array, or an empty array), [/search] renders
    the results page with zero objects and a non-empty message, and the
    search request is the only outbound call: no object details are fetched
    and nothing is sent to translation. *)
Theorem C6_empty_search_short_circuits (w : World) (req : Query)
    (data : option SearchData) :
  search_api w (request_url req) = Resolved data ->
  carried_ids data = [] ->
  exists page text,
    search_handler w req
    = ([HttpGet (request_url req)],
       Resolved (Render "results" (ResultsLocals page))) /\
    objects page = [] /\
    message page = Some text /\ text <> "" /\
    translations (search_handler w req).1 = [] /\
    (forall id, HttpGet (objects_url id) ∉ (search_handler w req).1).
Proof.
  intros Hsearch Hzero. apply found_ids_None in Hzero.
  rewrite (search_handler_empty w req data Hsearch Hzero).
  eexists. eexists. split; [reflexivity|]. simpl.
  split; [reflexivity|]. split; [reflexivity|]. split; [discriminate|].
  split; [reflexivity|].
  intros id [Heq|Hin]%elem_of_cons; [|by inversion Hin].
  injection Heq as Heq. symmetry in Heq.
  now apply request_url_not_detail in Heq.
Qed.

Lemma C6_empty_search_short_circuits_witness :
  search_api (museum [] to_spanish) (request_url (request None (Some "zzz") None None))
  = Resolved (Some {| objectIDs := Some []; total := Some 0 |}) /\
  carried_ids (Some {| objectIDs := Some []; total := Some 0 |}) = [] /\
  exists page text,
    search_handler (museum [] to_spanish) (request None (Some "zzz") None None)
    = ([HttpGet (request_url (request None (Some "zzz") None None))],
       Resolved (Render "results" (ResultsLocals page))) /\
    objects page = [] /\
    message page = Some text /\ text <> "" /\
    translations
      (search_handler (museum [] to_spanish)
         (request None (Some "zzz") None None)).1 = [] /\
    (forall id,
       HttpGet (objects_url id)
       ∉ (search_handler (museum [] to_spanish)
            (request None (Some "zzz") None None)).1).
Proof.
  split; [reflexivity|]. split; [reflexivity|].
  apply (C6_empty_search_short_circuits (museum [] to_spanish)
           (request None (Some "zzz") None None)
           (Some {| objectIDs := Some []; total := Some 0 |}));
    reflexivity.
Defined.

(** ** Additional images *)

(** C7. When the fetched object has no [additionalImages] field, or an
    empty one, [/object/:id/additional-images] answers with the JSON array
    [[]] (a success response), not with an error. *)
Theorem C7_no_additional_images (w : World) (objectId : string)
    (object : ArtObject) :
  objects_api w (objects_url objectId) = Resolved object ->
  additionalImages object = None \/ additionalImages object = Some [] ->
  additional_images_handler w objectId
  = ([HttpGet (objects_url objectId)], Resolved (Json [])).
Proof.
  intros Hfetch Himages. unfold additional_images_handler, get_object.
  rewrite Hfetch. simpl. destruct Himages as [->| ->]; reflexivity.
Qed.

Lemma C7_no_additional_images_witness :
  objects_api (museum [] to_spanish) (objects_url "1")
  = Resolved (vase 1 (Some image_url)) /\
  (additionalImages (vase 1 (Some image_url)) = None \/
   additionalImages (vase 1 (Some image_url)) = Some []) /\
  additional_images_handler (museum [] to_spanish) "1"
  = ([HttpGet (objects_url "1")], Resolved (Json [])).
Proof.
  assert (objects_api (museum [] to_spanish) (objects_url "1")
          = Resolved (vase 1 (Some image_url))) as Hfetch by reflexivity.
  assert (additionalImages (vase 1 (Some image_url)) = None \/
          additionalImages (vase 1 (Some image_url)) = Some []) as Himages
    by (left; reflexivity).
  split; [exact Hfetch|]. split; [exact Himages|].
  exact (C7_no_additional_images _ _ _ Hfetch Himages).
Defined.

(** With images, the same route answers with them. *)
Lemma additional_images_some (w : World) (objectId : string)
    (object : ArtObject) (image : string) (images : list string) :
  objects_api w (objects_url objectId) = Resolved object ->
  additionalImages object = Some (image :: images) ->
  additional_images_handler w objectId
  = ([HttpGet (objects_url objectId)], Resolved (Json (image :: images))).
Proof.
  intros Hfetch Himages. unfold additional_images_handler, get_object.
  rewrite Hfetch. simpl. now rewrite Himages.
Qed.

(** ** The upstream search URL *)

Lemma present_Some (v : option string) (s : string) :
  present v = Some s <-> v = Some s /\ s <> "".
Proof.
  unfold present. destruct v as [t|]; [|split; [discriminate | intros [[=] _]]].
  destruct (decide (t = "")) as [->|Hne]; split.
  - discriminate.
  - intros [[= <-] Hne]. congruence.
  - intros [= <-]. split; [reflexivity | assumption].
  - intros [[= <-] _]. reflexivity.
Qed.

(** How [v || ''] followed by [if (v)] relates to presence. *)
Lemma or_default_present (v : option string) :
  (present v = None /\ JS.or_default v "" = "") \/
  (exists s, present v = Some s /\ JS.or_default v "" = s /\
             JS.truthy_string s = true).
Proof.
  unfold present, JS.or_default, JS.truthy. destruct v as [s|]; [|now left].
  unfold JS.truthy_string. destruct (decide (s = "")) as [->|Hne].
  - now left.
  - right. exists s. simpl.
    rewrite (proj2 (String.eqb_neq s "") Hne). simpl. auto.
Qed.

Lemma search_url_step (url name : string) (v : option string) :
  (if JS.truthy_string (JS.or_default v "")
   then url +:+ "&" +:+ name +:+ "=" +:+ JS.or_default v ""
   else url)
  = url +:+ query_parameter name v.
Proof.
  unfold query_parameter.
  destruct (or_default_present v) as [[-> ->]|(s & -> & -> & ->)].
  - simpl. now rewrite append_nil_r.
  - reflexivity.
Qed.

(** C9. Each of the filters departmentId, keyword and location is appended
    to the upstream search URL as a query parameter ([departmentId], [q],
    [geoLocation]) exactly when the request gives it a non-empty value, and
    nothing is appended for a filter that is absent; [hasImages=true] is
    always there. The URL so built is the one the handler requests. *)
Theorem C9_filters_in_search_url (w : World) (req : Query) :
  request_url req = spec_search_url req /\
  (exists rest,
     request_url req
     = "https://collectionapi.metmuseum.org/public/collection/v1/search?hasImages=true"
       +:+ rest) /\
  (forall v, present (query_departmentId req) = Some v ->
     exists rest,
       request_url req = search_base_url +:+ ("&departmentId=" +:+ v) +:+ rest) /\
  (forall v, present (query_keyword req) = Some v ->
     exists before rest,
       request_url req = before +:+ ("&q=" +:+ v) +:+ rest) /\
  (forall v, present (query_location req) = Some v ->
     exists before,
       request_url req = before +:+ ("&geoLocation=" +:+ v)) /\
  (present (query_departmentId req) = None ->
     request_url req
     = search_base_url +:+ query_parameter "q" (query_keyword req)
       +:+ query_parameter "geoLocation" (query_location req)) /\
  (present (query_keyword req) = None ->
     request_url req
     = search_base_url
       +:+ query_parameter "departmentId" (query_departmentId req)
       +:+ query_parameter "geoLocation" (query_location req)) /\
  (present (query_location req) = None ->
     request_url req
     = search_base_url
       +:+ query_parameter "departmentId" (query_departmentId req)
       +:+ query_parameter "q" (query_keyword req)) /\
  exists log r, search_handler w req = (HttpGet (spec_search_url req) :: log, r).
Proof.
  assert (request_url req = spec_search_url req) as Hurl.
  { unfold request_url, search_url, spec_search_url. cbv zeta.
    change ("&departmentId=" +:+ ?x) with ("&" +:+ "departmentId" +:+ "=" +:+ x).
    change ("&q=" +:+ ?x) with ("&" +:+ "q" +:+ "=" +:+ x).
    change ("&geoLocation=" +:+ ?x) with ("&" +:+ "geoLocation" +:+ "=" +:+ x).
    rewrite !search_url_step, !append_assoc. reflexivity. }
  split; [exact Hurl|]. split; [apply request_url_base|].
  split; [|split; [|split; [|split; [|split; [|split]]]]].
  - intros v Hv. rewrite Hurl. unfold spec_search_url, query_parameter at 1.
    rewrite Hv. eexists. reflexivity.
  - intros v Hv. rewrite Hurl. unfold spec_search_url.
    unfold query_parameter at 2. rewrite Hv.
    exists (search_base_url
            +:+ query_parameter "departmentId" (query_departmentId req)).
    eexists. rewrite !append_assoc. reflexivity.
  - intros v Hv. rewrite Hurl. unfold spec_search_url.
    unfold query_parameter at 3. rewrite Hv.
    exists (search_base_url
            +:+ query_parameter "departmentId" (query_departmentId req)
            +:+ query_parameter "q" (query_keyword req)).
    rewrite !append_assoc. reflexivity.
  - intros Hv. rewrite Hurl. unfold spec_search_url, query_parameter at 1.
    rewrite Hv. reflexivity.
  - intros Hv. rewrite Hurl. unfold spec_search_url.
    unfold query_parameter at 2. rewrite Hv. reflexivity.
  - intros Hv. rewrite Hurl. unfold spec_search_url.
    unfold query_parameter at 3. rewrite Hv. now rewrite append_nil_r.
  - rewrite <- Hurl. unfold search_handler. cbv zeta.
    change (search_url _ _ _) with (request_url req).
    unfold get_search.
    destruct (search_api w (request_url req)) as [data|e]; cbn [bind try_catch].
    + destruct (match found_ids data with Some _ => _ | None => _ end)
        as [log [r|e]]; simpl; eexists; eexists; reflexivity.
    + simpl. eexists. eexists. reflexivity.
Qed.

Example search_url_examples :
  request_url (request None None None None)
  = "https://collectionapi.metmuseum.org/public/collection/v1/search?hasImages=true" /\
  request_url (request (Some "6") (Some "vase") (Some "Japan") (Some "2"))
  = "https://collectionapi.metmuseum.org/public/collection/v1/search?hasImages=true&departmentId=6&q=vase&geoLocation=Japan" /\
  request_url (request (Some "") (Some "vase") None None)
  = "https://collectionapi.metmuseum.org/public/collection/v1/search?hasImages=true&q=vase".
Proof. repeat split; reflexivity. Qed.

(** ** Order of the rendered objects *)

Lemma omap_lookup_Some {A B} (f : A -> option B) (l : list A) (i : nat) (b : B) :
  omap f l !! i = Some b ->
  exists (i' : nat) (x : A), l !! i' = Some x /\ f x = Some b.
Proof.
  intros Hb. apply list_elem_of_lookup_2, list_elem_of_omap in Hb
    as (x & Hx & Hfx).
  apply list_elem_of_lookup_1 in Hx as [i' Hi']. eauto.
Qed.

(** [omap] keeps the elements it retains in the order of its input. *)
Lemma omap_order {A B} (f : A -> option B) (l : list A) (i j : nat) (a b : B) :
  (i < j)%nat ->
  omap f l !! i = Some a -> omap f l !! j = Some b ->
  exists (i' j' : nat) (x y : A),
    (i' < j')%nat /\ l !! i' = Some x /\ l !! j' = Some y /\
    f x = Some a /\ f y = Some b.
Proof.
  revert i j. induction l as [|z l IH]; intros i j Hij Ha Hb.
  - discriminate Ha.
  - csimpl in Ha; csimpl in Hb. destruct (f z) as [c|] eqn:Hz.
    + destruct i as [|i].
      * injection Ha as <-. destruct j as [|j]; [lia|]. simpl in Hb.
        destruct (omap_lookup_Some f l j b Hb) as (j' & y & Hy & Hfy).
        exists 0%nat, (S j'), z, y. repeat split; try assumption. lia.
      * destruct j as [|j]; [lia|]. simpl in Ha, Hb.
        destruct (IH i j ltac:(lia) Ha Hb) as (i' & j' & x & y & ? & ? & ? & ? & ?).
        exists (S i'), (S j'), x, y. repeat split; try assumption. lia.
    + destruct (IH i j Hij Ha Hb) as (i' & j' & x & y & ? & ? & ? & ? & ?).
      exists (S i'), (S j'), x, y. repeat split; try assumption. lia.
Qed.

(** C8. On [/search], the rendered objects follow the order of the sliced
    id sequence: they are the displayable results of the per-id tasks, taken
    in the order of the ids, so any two rendered objects come from two ids
    that stand in the same order in the slice. This does not depend on the
    order in which the concurrent tasks complete: whatever permutation of
    the tasks the completion order is, [Promise.all] hands over the same
    array of results. *)
Theorem C8_order_preserved (w : World) (req : Query)
    (data : option SearchData) (ids : list Z) (order : list nat) :
  search_api w (request_url req) = Resolved data ->
  found_ids data = Some ids ->
  order ≡ₚ seq 0 (length (search_page_ids req ids)) ->
  exists page,
    (search_handler w req).2 = Resolved (Render "results" (ResultsLocals page)) /\
    (promise_all (map (search_task w) (search_page_ids req ids))).2
    = Resolved (map task_value (map (search_task w) (search_page_ids req ids))) /\
    promise_all_values order
      (map task_value (map (search_task w) (search_page_ids req ids)))
    = Some (map task_value (map (search_task w) (search_page_ids req ids))) /\
    (fun values : list (option ArtObject) => omap displayable values)
      <$> promise_all_values order
            (map task_value (map (search_task w) (search_page_ids req ids)))
    = Some (objects page) /\
    objects page
    = omap (fun id => displayable (task_value (search_task w id)))
           (search_page_ids req ids) /\
    forall (i j : nat) (a b : ArtObject),
      (i < j)%nat ->
      objects page !! i = Some a -> objects page !! j = Some b ->
      exists (i' j' : nat) (id_a id_b : Z),
        (i' < j')%nat /\
        search_page_ids req ids !! i' = Some id_a /\
        search_page_ids req ids !! j' = Some id_b /\
        displayable (task_value (search_task w id_a)) = Some a /\
        displayable (task_value (search_task w id_b)) = Some b.
Proof.
  intros Hsearch Hfound Horder.
  rewrite (search_handler_found w req data ids Hsearch Hfound).
  eexists. split; [reflexivity|]. cbn [objects].
  split; [|split; [|split; [|split]]].
  - rewrite search_tasks_resolved. now rewrite map_map.
  - apply promise_all_values_permutation. now rewrite !length_map.
  - rewrite promise_all_values_permutation by (now rewrite !length_map).
    simpl. now rewrite !omap_map.
  - reflexivity.
  - intros i j a b Hij Ha Hb.
    exact (omap_order _ _ i j a b Hij Ha Hb).
Qed.

Lemma C8_order_preserved_witness :
  search_api (museum [6; 1; 2; 3; 5] to_spanish)
    (request_url (request None None None None))
  = Resolved (Some {| objectIDs := Some [6; 1; 2; 3; 5]; total := Some 5 |}) /\
  found_ids (Some {| objectIDs := Some [6; 1; 2; 3; 5]; total := Some 5 |})
  = Some [6; 1; 2; 3; 5] /\
  [3; 0; 4; 1; 2]%nat
  ≡ₚ seq 0 (length (search_page_ids (request None None None None) [6; 1; 2; 3; 5])) /\
  exists page,
    (search_handler (museum [6; 1; 2; 3; 5] to_spanish)
       (request None None None None)).2
    = Resolved (Render "results" (ResultsLocals page)) /\
    objects page = [translated_vase 6; translated_vase 1; translated_vase 5].
Proof.
  assert (search_api (museum [6; 1; 2; 3; 5] to_spanish)
            (request_url (request None None None None))
          = Resolved (Some {| objectIDs := Some [6; 1; 2; 3; 5]; total := Some 5 |}))
    as Hsearch by reflexivity.
  assert (found_ids (Some {| objectIDs := Some [6; 1; 2; 3; 5]; total := Some 5 |})
          = Some [6; 1; 2; 3; 5]) as Hfound by reflexivity.
  assert ([3; 0; 4; 1; 2]%nat
          ≡ₚ seq 0 (length (search_page_ids (request None None None None)
                              [6; 1; 2; 3; 5]))) as Horder.
  { apply (bool_decide_unpack _). vm_compute. exact I. }
  split; [exact Hsearch|]. split; [exact Hfound|]. split; [exact Horder|].
  destruct (C8_order_preserved (museum [6; 1; 2; 3; 5] to_spanish)
              (request None None None None) _ _ _ Hsearch Hfound Horder)
    as (page & Hpage & _ & _ & _ & Hobjects & _).
  exists page. split; [exact Hpage|]. rewrite Hobjects. vm_compute. reflexivity.
Defined.

(** ** The image filter *)

Lemma displayable_truthy (r : option ArtObject) (obj : ArtObject) :
  displayable r = Some obj <-> r = Some obj /\ JS.truthy (primaryImage obj) = true.
Proof.
  unfold displayable. destruct r as [o|]; [|split; [discriminate | intros [[=] _]]].
  destruct (JS.truthy (primaryImage o)) eqn:Himg; split.
  - intros [= <-]. auto.
  - intros [[= <-] _]. reflexivity.
  - discriminate.
  - intros [[= <-] Ht]. congruence.
Qed.


Lemma translations_app (l1 l2 : list call) :
  translations (l1 ++ l2) = translations l1 ++ translations l2.
Proof. apply omap_app. Qed.

Lemma translations_gets (urls : list string) :
  translations (map HttpGet urls) = [].
Proof. induction urls as [|u urls IH]; [reflexivity | exact IH]. Qed.




(** With [getAllObjectsFromAPI] supplied, [/results] would render every
    fetched object, with or without an image, and translate nothing. *)
Lemma results_with_listing_rendered_objects (w : World) (req : Query)
    (log0 : list call) (allObjects : list Z) :
  Forall (fun id => ~ fatal w id) (results_page_ids req allObjects) ->
  exists page,
    (results_handler (Some (log0, Resolved allObjects)) w req).2
    = Resolved (Render "results" (ResultsLocals page)) /\
    objects page = omap (fetched w) (results_page_ids req allObjects) /\
    translations (results_handler (Some (log0, Resolved allObjects)) w req).1
    = translations log0.
Proof.
  intros Hok.
  rewrite (results_handler_rendered _ w req log0 allObjects eq_refl Hok).
  eexists. split; [reflexivity|]. split; [reflexivity|].
  rewrite (results_handler_log _ w req log0 allObjects eq_refl).
  rewrite translations_app, <- (map_map detail_url HttpGet).
  rewrite translations_gets. apply app_nil_r.
Qed.

(** ** Failures inside a batch *)

Lemma fetched_None_iff (w : World) (id : Z) :
  fetched w id = None <-> not_found w id \/ fatal w id.
Proof.
  unfold fetched, not_found, fatal.
  destruct (objects_api w (detail_url id)) as [obj|e]; split.
  - discriminate.
  - intros [(e & [=] & _)|(e & [=] & _)].
  - intros _. destruct (decide (err_status e = Some 404)); eauto.
  - reflexivity.
Qed.

Lemma search_task_failed_fetch (w : World) (id : Z) :
  fetched w id = None -> displayable (task_value (search_task w id)) = None.
Proof.
  unfold fetched. destruct (objects_api w (detail_url id)) as [obj|e] eqn:Hfetch;
    [discriminate|]. intros _.
  now rewrite (search_task_fetch_rejected w id e Hfetch).
Qed.

Lemma omap_filter_is_Some {A B} (f g : A -> option B) (l : list A) :
  (forall x, g x = None -> f x = None) ->
  omap f l = omap f (filter (fun x => is_Some (g x)) l).
Proof.
  intros Hfg. induction l as [|x l IH]; [reflexivity|].
  rewrite filter_cons. destruct (decide (is_Some (g x))) as [Hs|Hn]; csimpl.
  - now rewrite IH.
  - rewrite Hfg, IH; [reflexivity|].
    destruct (g x); [exfalso; apply Hn; eauto | reflexivity].
Qed.

(** C2, as the code has it. On [/results] (given the id listing): an id
    whose fetch returns 404 yields [null] and is dropped, the other ids of
    the batch being rendered as fetched; an id whose fetch fails with any
    other error fails the whole request with HTTP 500. On [/search]: an id
    whose fetch fails, with a 404 or with any other error, yields [null]
    and is dropped without affecting the other ids, and the request is
    answered with the rendered page, not with a 500. *)
Theorem C2_batch_failures (w : World) (req : Query) (data : option SearchData)
    (ids : list Z) (log0 : list call) (allObjects : list Z) :
  search_api w (request_url req) = Resolved data ->
  found_ids data = Some ids ->
  ((Forall (fun id => ~ fatal w id) (results_page_ids req allObjects) ->
    exists page,
      (results_handler (Some (log0, Resolved allObjects)) w req).2
      = Resolved (Render "results" (ResultsLocals page)) /\
      objects page = omap (fetched w) (results_page_ids req allObjects) /\
      objects page
      = omap (fetched w)
          (filter (fun id => is_Some (fetched w id))
                  (results_page_ids req allObjects)) /\
      (forall id, not_found w id -> fetched w id = None)) /\
   (Exists (fatal w) (results_page_ids req allObjects) ->
    (results_handler (Some (log0, Resolved allObjects)) w req).2
    = Resolved (Send 500 "Error al obtener resultados"))) /\
  (exists page,
     (search_handler w req).2 = Resolved (Render "results" (ResultsLocals page)) /\
     (forall id, not_found w id \/ fatal w id ->
        search_task w id = ([HttpGet (detail_url id)], Resolved None)) /\
     objects page
     = omap (fun id => displayable (task_value (search_task w id)))
         (search_page_ids req ids) /\
     objects page
     = omap (fun id => displayable (task_value (search_task w id)))
         (filter (fun id => is_Some (fetched w id)) (search_page_ids req ids))).
Proof.
  intros Hsearch Hfound. split; [split|].
  - intros Hok.
    rewrite (results_handler_rendered _ w req log0 allObjects eq_refl Hok).
    eexists. split; [reflexivity|]. cbn [objects].
    split; [reflexivity|]. split.
    + now apply omap_filter_is_Some.
    + intros id Hnf. apply fetched_None_iff. now left.
  - intros Hfatal.
    exact (results_handler_fatal _ w req log0 allObjects eq_refl Hfatal).
  - rewrite (search_handler_found w req data ids Hsearch Hfound).
    eexists. split; [reflexivity|]. cbn [objects].
    split; [|split; [reflexivity|]].
    + intros id [(e & He & _)|(e & He & _)];
        now apply (search_task_fetch_rejected w id e).
    + apply omap_filter_is_Some. intros id. apply search_task_failed_fetch.
Qed.

Lemma C2_batch_failures_witness :
  search_api (museum [1; 2; 4; 5] to_spanish)
    (request_url (request None None None None))
  = Resolved (Some {| objectIDs := Some [1; 2; 4; 5]; total := Some 4 |}) /\
  found_ids (Some {| objectIDs := Some [1; 2; 4; 5]; total := Some 4 |})
  = Some [1; 2; 4; 5] /\
  (results_handler (Some ([], Resolved [1; 2; 4; 5])) (museum [1; 2; 4; 5] to_spanish)
     (request None None None None)).2
  = Resolved (Send 500 "Error al obtener resultados") /\
  exists page,
    (search_handler (museum [1; 2; 4; 5] to_spanish)
       (request None None None None)).2
    = Resolved (Render "results" (ResultsLocals page)) /\
    objects page = [translated_vase 1; translated_vase 5].
Proof.
  assert (search_api (museum [1; 2; 4; 5] to_spanish)
            (request_url (request None None None None))
          = Resolved (Some {| objectIDs := Some [1; 2; 4; 5]; total := Some 4 |}))
    as Hsearch by reflexivity.
  assert (found_ids (Some {| objectIDs := Some [1; 2; 4; 5]; total := Some 4 |})
          = Some [1; 2; 4; 5]) as Hfound by reflexivity.
  destruct (C2_batch_failures (museum [1; 2; 4; 5] to_spanish)
              (request None None None None) _ _ [] [1; 2; 4; 5] Hsearch Hfound)
    as [[_ Hfatal] (page & Hpage & _ & Hobjects & _)].
  split; [exact Hsearch|]. split; [exact Hfound|]. split.
  - apply Hfatal. change (results_page_ids _ _) with [1; 2; 4; 5].
    apply Exists_cons_tl, Exists_cons_tl, Exists_cons_hd.
    exists (http_error 500). split; [reflexivity | discriminate].
  - exists page. split; [exact Hpage|]. rewrite Hobjects. vm_compute. reflexivity.
Defined.

(** C2 as stated fails on [/search]: the fetch of object 4 fails with a
    500, an error other than 404, and the request is answered with the
    rendered page holding the other objects, not with a 500. *)
Lemma C2_counterexample :
  4 ∈ search_page_ids (request None None None None) [1; 2; 4; 5] /\
  objects_api (museum [1; 2; 4; 5] to_spanish) (detail_url 4)
  = Rejected (http_error 500) /\
  err_status (http_error 500) <> Some 404 /\
  (search_handler (museum [1; 2; 4; 5] to_spanish) (request None None None None)).2
  = Resolved (Render "results" (ResultsLocals
      {| objects := [translated_vase 1; translated_vase 5];
         currentPage := 1; totalPages := 1;
         echo_departmentId := Some ""; echo_keyword := Some "";
         echo_location := Some ""; message := None |})).
Proof.
  split; [|split; [reflexivity|split; [discriminate|vm_compute; reflexivity]]].
  change (search_page_ids _ _) with [1; 2; 4; 5].
  apply (bool_decide_unpack _). vm_compute. exact I.
Qed.

(** ** Translation failures *)

Lemma translate_department_shown (w : World) (department : Department) :
  translate_department w department
  = ([TranslateCall (displayName department)],
     Resolved (shown_department w department)).
Proof.
  unfold translate_department, shown_department, translate, bind, ret.
  destruct (translate_api w (displayName department)); reflexivity.
Qed.

(** On [/], a failed translation leaves the department in the list under
    its upstream name. *)
Lemma translate_department_fallback (w : World) (department : Department)
    (e : error) :
  translate_api w (displayName department) = Rejected e ->
  translate_department w department
  = ([TranslateCall (displayName department)], Resolved department).
Proof.
  intros He. rewrite translate_department_shown. unfold shown_department.
  rewrite He. now destruct department.
Qed.

(** [/] renders one entry per upstream department, in order, whatever the
    translation service does. *)
Lemma home_handler_rendered (w : World) (departments : list Department) :
  departments_api w = Resolved departments ->
  home_handler w
  = (HttpGet departments_url
       :: map (fun d => TranslateCall (displayName d)) departments,
     Resolved (Render "index"
       (IndexLocals (map (shown_department w) departments)))).
Proof.
  intros Hdeps. unfold home_handler, get_departments. rewrite Hdeps.
  cbn [bind].
  assert (promise_all (map (translate_department w) departments)
          = (map (fun d => TranslateCall (displayName d)) departments,
             Resolved (map (shown_department w) departments))) as ->.
  { clear Hdeps. induction departments as [|d l IH]; [reflexivity|].
    simpl. now rewrite translate_department_shown, IH. }
  cbn [bind ret try_catch]. now rewrite app_nil_r.
Qed.

(** On [/search], the [catch] of a task surrounds the translations too: a
    failed translation of the title makes the task give [null]. *)
Lemma search_task_translation_rejected (w : World) (id : Z) (obj : ArtObject)
    (text : string) (e : error) :
  objects_api w (detail_url id) = Resolved obj ->
  title obj = Some text -> text <> "" ->
  translate_api w text = Rejected e ->
  search_task w id
  = ([HttpGet (detail_url id); TranslateCall text], Resolved None).
Proof.
  intros Hfetch Htitle Hne Hrej.
  unfold search_task, get_object. fold (detail_url id). rewrite Hfetch.
  cbn [bind]. unfold translate_field at 1. rewrite Htitle. simpl JS.truthy.
  unfold JS.truthy_string. rewrite (proj2 (String.eqb_neq text "") Hne).
  simpl. unfold translate. rewrite Hrej. reflexivity.
Qed.

(** C1, at the input where it fails. The translation service rejects every
    call; the search returns the id 1 and object 1 is fetched with the
    title "Vase" and an image. [/search] answers with the rendered page,
    but with no object on it: the failed translation of the title has made
    the task give [null], where the claim keeps the object with its title
    "Vase". On [/], in the same world, both departments are rendered under
    their upstream names. *)
Theorem C1_translation_failure_on_search :
  objects_api (museum [1] out_of_service) (detail_url 1)
  = Resolved (vase 1 (Some image_url)) /\
  translate_api (museum [1] out_of_service) "Vase"
  = Rejected {| err_status := None; err_message := "Too Many Requests" |} /\
  search_handler (museum [1] out_of_service) (request None None None None)
  = ([HttpGet (request_url (request None None None None));
      HttpGet (detail_url 1); TranslateCall "Vase"],
     Resolved (Render "results" (ResultsLocals
       {| objects := [];
          currentPage := 1; totalPages := 1;
          echo_departmentId := Some ""; echo_keyword := Some "";
          echo_location := Some ""; message := None |}))) /\
  (home_handler (museum [1] out_of_service)).2
  = Resolved (Render "index" (IndexLocals
      [ {| departmentId := 1; displayName := "American Decorative Arts" |};
        {| departmentId := 6; displayName := "Asian Art" |} ])).
Proof.
  split; [reflexivity|]. split; [reflexivity|].
  split; vm_compute; reflexivity.
Qed.

(** ** [/results] in the module as it stands *)

(** C5, on the module as it stands. [index.js] does not define
    [getAllObjectsFromAPI], so every request to [/results] is answered with
    the 500 of the handler's own [catch], before any outbound call; no page
    is rendered and no totalPages is computed. (With the function supplied,
    [results_handler_rendered] gives the page the claim describes.) *)
Theorem C5_results_as_shipped (w : World) (req : Query) :
  results_handler_as_shipped w req
  = ([], Resolved (Send 500 "Error al obtener resultados")).
Proof. apply results_handler_unbound. Qed.

(** ** Every request is answered *)

Lemma search_handler_responds (w : World) (req : Query) :
  exists r, (search_handler w req).2 = Resolved r.
Proof.
  destruct (search_api w (request_url req)) as [data|e] eqn:Hsearch.
  - destruct (found_ids data) as [ids|] eqn:Hfound.
    + rewrite (search_handler_found w req data ids Hsearch Hfound). eauto.
    + rewrite (search_handler_empty w req data Hsearch Hfound). eauto.
  - rewrite (search_handler_upstream_error w req e Hsearch). eauto.
Qed.

Lemma home_handler_responds (w : World) :
  exists r, (home_handler w).2 = Resolved r.
Proof.
  destruct (departments_api w) as [departments|e] eqn:Hdeps.
  - rewrite (home_handler_rendered w departments Hdeps). eauto.
  - unfold home_handler, get_departments. rewrite Hdeps. simpl. eauto.
Qed.

Lemma additional_images_handler_responds (w : World) (objectId : string) :
  exists r, (additional_images_handler w objectId).2 = Resolved r.
Proof.
  unfold additional_images_handler, get_object.
  destruct (objects_api w (objects_url objectId)) as [object|e]; simpl.
  - destruct (additionalImages object) as [[|image images]|]; simpl; eauto.
  - eauto.
Qed.

Lemma results_handler_responds getAll (w : World) (req : Query) :
  exists r, (results_handler getAll w req).2 = Resolved r.
Proof.
  unfold results_handler. cbv zeta.
  destruct getAll as [[log0 [allObjects|e]]|]; cbn [call_getAllObjectsFromAPI bind].
  - destruct (promise_all _) as [log [values|e]]; simpl; eauto.
  - simpl. eauto.
  - simpl. eauto.
Qed.

(** * Further properties of the handlers *)

(** ** The per-id task of [/search], in full *)

(** What a task does once the fetch has succeeded: it sends the truthy
    texts to translation one after the other, stops at the first rejection,
    and gives the translated object only if none rejected. *)
Lemma search_task_fetched (w : World) (id : Z) (obj : ArtObject) :
  objects_api w (detail_url id) = Resolved obj ->
  search_task w id
  = (HttpGet (detail_url id)
       :: map TranslateCall (until_first_rejection w (to_translate obj)),
     Resolved (if forallb (translation_resolves w) (to_translate obj)
               then Some (translated_object w obj) else None)).
Proof.
  intros Hfetch. unfold search_task, get_object. fold (detail_url id).
  rewrite Hfetch. cbn [bind].
  unfold translate_field, translated_object, to_translate, localized, translate.
  destruct obj as [oid [t|] [c|] [d|] img imgs]; cbn;
    unfold translation_resolves;
    repeat (match goal with
            | H : JS.truthy_string ?x = _ |- context [JS.truthy_string ?x] =>
                rewrite H
            | H : translate_api w ?x = _ |- context [translate_api w ?x] =>
                rewrite H
            | |- context [JS.truthy_string ?x] =>
                destruct (JS.truthy_string x) eqn:?
            | |- context [translate_api w ?x] =>
                destruct (translate_api w x) eqn:?
            end; cbn; unfold translation_resolves);
    reflexivity.
Qed.

Lemma until_first_rejection_all (w : World) (texts : list string) :
  forallb (translation_resolves w) texts = true ->
  until_first_rejection w texts = texts.
Proof.
  induction texts as [|text rest IH]; [reflexivity|]. simpl.
  intros [Ht Hrest]%andb_true_iff. rewrite Ht. now rewrite IH.
Qed.

Lemma forallb_translation_resolves (w : World) (texts : list string) :
  forallb (translation_resolves w) texts = true <->
  forall text, text ∈ texts -> exists t, translate_api w text = Resolved t.
Proof.
  rewrite forallb_forall. unfold translation_resolves. split.
  - intros H text Hin%list_elem_of_In. specialize (H text Hin).
    destruct (translate_api w text); [eauto | discriminate].
  - intros H text Hin%list_elem_of_In. now destruct (H text Hin) as [t ->].
Qed.

Lemma localized_falsy (w : World) (v : option string) :
  JS.truthy v = false -> localized w v = v.
Proof. unfold localized. now intros ->. Qed.

Lemma localized_translated (w : World) (text t : string) :
  text <> "" -> translate_api w text = Resolved t ->
  localized w (Some text) = Some t.
Proof.
  intros Hne Ht. unfold localized. simpl. unfold JS.truthy_string.
  rewrite (proj2 (String.eqb_neq text "") Hne). simpl. now rewrite Ht.
Qed.

(** What a task of [/search] contributes to the rendered page. *)
Lemma search_task_displayed (w : World) (id : Z) (shown : ArtObject) :
  displayable (task_value (search_task w id)) = Some shown <->
  exists obj,
    objects_api w (detail_url id) = Resolved obj /\
    forallb (translation_resolves w) (to_translate obj) = true /\
    JS.truthy (primaryImage obj) = true /\
    shown = translated_object w obj.
Proof.
  destruct (objects_api w (detail_url id)) as [obj|e] eqn:Hfetch.
  - rewrite (search_task_fetched w id obj Hfetch). unfold task_value.
    cbn [snd]. split.
    + intros Hd. exists obj. split; [reflexivity|].
      destruct (forallb _ _); [|discriminate Hd].
      apply displayable_truthy in Hd as [[= <-] Himg]. auto.
    + intros (o & [= <-] & -> & Himg & ->). apply displayable_truthy. auto.
  - rewrite (search_task_fetch_rejected w id e Hfetch). split.
    + discriminate.
    + intros (o & [=] & _).
Qed.

(** X1. On [/search], once an object has been fetched and every one of its
    truthy texts (title, culture, dynasty) is translated successfully, the
    task gives the object with exactly these texts replaced by their
    translations: a falsy text (missing or empty) is left as it is, and the
    id, the image and the additional images are those fetched. The texts are
    sent to translation in the order title, culture, dynasty, after the one
    GET of the object. *)
Theorem X1_search_task_translates (w : World) (id : Z) (obj : ArtObject) :
  objects_api w (detail_url id) = Resolved obj ->
  (forall text, text ∈ to_translate obj ->
     exists t, translate_api w text = Resolved t) ->
  exists shown,
    search_task w id
    = (HttpGet (detail_url id) :: map TranslateCall (to_translate obj),
       Resolved (Some shown)) /\
    objectID shown = objectID obj /\
    primaryImage shown = primaryImage obj /\
    additionalImages shown = additionalImages obj /\
    (forall get : ArtObject -> option string,
       get = title \/ get = culture \/ get = dynasty ->
       (JS.truthy (get obj) = false -> get shown = get obj) /\
       (forall text t,
          get obj = Some text -> text <> "" ->
          translate_api w text = Resolved t -> get shown = Some t)).
Proof.
  intros Hfetch Hall. apply forallb_translation_resolves in Hall.
  exists (translated_object w obj).
  rewrite (search_task_fetched w id obj Hfetch), Hall.
  rewrite until_first_rejection_all by assumption.
  split; [reflexivity|]. split; [reflexivity|]. split; [reflexivity|].
  split; [reflexivity|].
  intros get [->|[->| ->]]; cbn [translated_object title culture dynasty];
    (split; [apply localized_falsy|]);
    intros text t -> Hne Ht; now apply localized_translated.
Qed.

Lemma X1_search_task_translates_witness :
  objects_api (museum [1] to_spanish) (detail_url 1)
  = Resolved (vase 1 (Some image_url)) /\
  (forall text, text ∈ to_translate (vase 1 (Some image_url)) ->
     exists t, translate_api (museum [1] to_spanish) text = Resolved t) /\
  exists shown,
    search_task (museum [1] to_spanish) 1
    = ([HttpGet (detail_url 1); TranslateCall "Vase"; TranslateCall "Greek"],
       Resolved (Some shown)) /\
    title shown = Some "[es] Vase" /\ dynasty shown = Some "".
Proof.
  assert (objects_api (museum [1] to_spanish) (detail_url 1)
          = Resolved (vase 1 (Some image_url))) as Hfetch by reflexivity.
  assert (forall text, text ∈ to_translate (vase 1 (Some image_url)) ->
            exists t, translate_api (museum [1] to_spanish) text = Resolved t)
    as Hall by (intros text _; eexists; reflexivity).
  split; [exact Hfetch|]. split; [exact Hall|].
  destruct (X1_search_task_translates _ _ _ Hfetch Hall)
    as (shown & Htask & _ & _ & _ & Hfields).
  exists shown. split; [exact Htask|]. split.
  - apply (proj2 (Hfields title (or_introl eq_refl)) "Vase");
      [reflexivity | discriminate | reflexivity].
  - apply (proj1 (Hfields dynasty (or_intror (or_intror eq_refl)))).
    reflexivity.
Defined.

Lemma translations_search_task (w : World) (id : Z) (obj : ArtObject) :
  objects_api w (detail_url id) = Resolved obj ->
  translations (search_task w id).1
  = until_first_rejection w (to_translate obj).
Proof.
  intros Hfetch. rewrite (search_task_fetched w id obj Hfetch). cbn [fst].
  unfold translations. cbn [omap list_omap].
  induction (until_first_rejection w (to_translate obj)) as [|t l IH];
    [reflexivity|]. csimpl. now f_equal.
Qed.

Lemma until_first_rejection_prefix (w : World) (texts : list string) :
  until_first_rejection w texts `prefix_of` texts.
Proof.
  induction texts as [|text rest IH]; [reflexivity|]. simpl.
  destruct (translation_resolves w text).
  - now apply prefix_cons.
  - now exists rest.
Qed.

Lemma until_first_rejection_last (w : World) (texts : list string) :
  forallb (translation_resolves w) texts = false ->
  exists failed,
    last (until_first_rejection w texts) = Some failed /\
    translation_resolves w failed = false.
Proof.
  induction texts as [|text rest IH]; [discriminate|]. simpl.
  destruct (translation_resolves w text) eqn:Ht; simpl.
  - intros Hrest. destruct (IH Hrest) as (failed & Hlast & Hfailed).
    exists failed. split; [|exact Hfailed].
    destruct (until_first_rejection w rest); [discriminate Hlast | exact Hlast].
  - intros _. exists text. auto.
Qed.

(** X2. On [/search], when the translation of any truthy text of a fetched
    object (its title, culture or dynasty) rejects, the task gives [null]
    and the object does not reach the rendered page. The texts sent to
    translation are an initial part of title, culture, dynasty that ends
    with a rejected one: nothing is sent after the first rejection. *)
Theorem X2_search_task_rejected_translation (w : World) (id : Z)
    (obj : ArtObject) (text : string) (e : error) :
  objects_api w (detail_url id) = Resolved obj ->
  text ∈ to_translate obj ->
  translate_api w text = Rejected e ->
  (search_task w id).2 = Resolved None /\
  displayable (task_value (search_task w id)) = None /\
  translations (search_task w id).1 `prefix_of` to_translate obj /\
  exists failed e',
    last (translations (search_task w id).1) = Some failed /\
    translate_api w failed = Rejected e'.
Proof.
  intros Hfetch Hin Hrej.
  assert (forallb (translation_resolves w) (to_translate obj) = false) as Hnot.
  { apply not_true_is_false. intros Hall.
    destruct (proj1 (forallb_translation_resolves w _) Hall text Hin) as [t Ht].
    congruence. }
  rewrite (translations_search_task w id obj Hfetch).
  rewrite (search_task_fetched w id obj Hfetch). unfold task_value.
  cbn [snd]. rewrite Hnot.
  split; [reflexivity|]. split; [reflexivity|].
  split; [apply until_first_rejection_prefix|].
  destruct (until_first_rejection_last w _ Hnot) as (failed & Hlast & Hfailed).
  unfold translation_resolves in Hfailed.
  destruct (translate_api w failed) as [t|e'] eqn:Hf; [discriminate|].
  exists failed, e'. auto.
Qed.

Lemma X2_search_task_rejected_translation_witness :
  objects_api (museum [1] out_of_service) (detail_url 1)
  = Resolved (vase 1 (Some image_url)) /\
  "Greek" ∈ to_translate (vase 1 (Some image_url)) /\
  translate_api (museum [1] out_of_service) "Greek"
  = Rejected {| err_status := None; err_message := "Too Many Requests" |} /\
  (search_task (museum [1] out_of_service) 1).2 = Resolved None.
Proof.
  assert (objects_api (museum [1] out_of_service) (detail_url 1)
          = Resolved (vase 1 (Some image_url))) as Hfetch by reflexivity.
  assert ("Greek" ∈ to_translate (vase 1 (Some image_url))) as Hin.
  { apply (bool_decide_unpack _). vm_compute. exact I. }
  assert (translate_api (museum [1] out_of_service) "Greek"
          = Rejected {| err_status := None; err_message := "Too Many Requests" |})
    as Hrej by reflexivity.
  split; [exact Hfetch|]. split; [exact Hin|]. split; [exact Hrej|].
  exact (proj1 (X2_search_task_rejected_translation _ _ _ _ _ Hfetch Hin Hrej)).
Defined.

(** X3. The objects that [/search] renders, when the search returned ids,
    are exactly the translated forms of the objects that (1) belong to an id
    of the page's slice, (2) were fetched successfully, (3) have a non-empty
    [primaryImage], and (4) had every truthy title, culture and dynasty
    translated successfully. Nothing else is rendered, and every such object
    is. *)
Theorem X3_search_rendered_objects (w : World) (req : Query)
    (data : option SearchData) (ids : list Z) :
  search_api w (request_url req) = Resolved data ->
  found_ids data = Some ids ->
  exists page,
    (search_handler w req).2 = Resolved (Render "results" (ResultsLocals page)) /\
    forall shown,
      shown ∈ objects page <->
      exists id obj,
        id ∈ search_page_ids req ids /\
        objects_api w (detail_url id) = Resolved obj /\
        JS.truthy (primaryImage obj) = true /\
        (forall text, text ∈ to_translate obj ->
           exists t, translate_api w text = Resolved t) /\
        objectID shown = objectID obj /\
        primaryImage shown = primaryImage obj /\
        additionalImages shown = additionalImages obj /\
        title shown = localized w (title obj) /\
        culture shown = localized w (culture obj) /\
        dynasty shown = localized w (dynasty obj).
Proof.
  intros Hsearch Hfound.
  rewrite (search_handler_found w req data ids Hsearch Hfound).
  eexists. split; [reflexivity|]. cbn [objects]. intros shown.
  rewrite list_elem_of_omap. split.
  - intros (id & Hin & Hd). apply search_task_displayed in Hd
      as (obj & Hfetch & Hall & Himg & ->).
    exists id, obj.
    pose proof (proj1 (forallb_translation_resolves w _) Hall) as Hall'.
    repeat split; assumption || reflexivity.
  - intros (id & obj & Hin & Hfetch & Himg & Hall & Hid & Hi & Ha & Ht & Hc & Hd).
    exists id. split; [exact Hin|]. apply search_task_displayed.
    exists obj. apply forallb_translation_resolves in Hall.
    repeat split; try assumption.
    destruct shown. simpl in *. unfold translated_object. congruence.
Qed.

Lemma X3_search_rendered_objects_witness :
  search_api (museum [3; 5; 2] to_spanish)
    (request_url (page_request None))
  = Resolved (Some {| objectIDs := Some [3; 5; 2]; total := Some 3 |}) /\
  found_ids (Some {| objectIDs := Some [3; 5; 2]; total := Some 3 |})
  = Some [3; 5; 2] /\
  exists page,
    (search_handler (museum [3; 5; 2] to_spanish) (page_request None)).2
    = Resolved (Render "results" (ResultsLocals page)) /\
    translated_vase 5 ∈ objects page.
Proof.
  assert (search_api (museum [3; 5; 2] to_spanish)
            (request_url (page_request None))
          = Resolved (Some {| objectIDs := Some [3; 5; 2]; total := Some 3 |}))
    as Hsearch by reflexivity.
  assert (found_ids (Some {| objectIDs := Some [3; 5; 2]; total := Some 3 |})
          = Some [3; 5; 2]) as Hfound by reflexivity.
  split; [exact Hsearch|]. split; [exact Hfound|].
  destruct (X3_search_rendered_objects _ _ _ _ Hsearch Hfound)
    as (page & Hpage & Hobjects).
  exists page. split; [exact Hpage|]. apply Hobjects.
  exists 5, (vase 5 (Some image_url)).
  split; [apply (bool_decide_unpack _); vm_compute; exact I|].
  split; [reflexivity|]. split; [reflexivity|].
  split; [intros text _; eexists; reflexivity|].
  repeat split.
Defined.

(** ** How much one request can ask of the outside *)

Lemma slice_length {A} (l : list A) (start size : Z) :
  0 <= size ->
  (length (JS.slice l start (start + size)) <= Z.to_nat size)%nat.
Proof.
  intros Hsize. unfold JS.slice, JS.relative_index. rewrite length_take.
  destruct (Z.ltb_spec start 0); destruct (Z.ltb_spec (start + size) 0); lia.
Qed.

Lemma to_translate_length (obj : ArtObject) :
  (length (to_translate obj) <= 3)%nat.
Proof.
  unfold to_translate. cbn.
  destruct (JS.truthy (title obj)), (title obj);
    destruct (JS.truthy (culture obj)), (culture obj);
    destruct (JS.truthy (dynasty obj)), (dynasty obj); simpl; lia.
Qed.

Lemma search_task_translations_bound (w : World) (id : Z) :
  (length (translations (search_task w id).1) <= 3)%nat.
Proof.
  destruct (objects_api w (detail_url id)) as [obj|e] eqn:Hfetch.
  - rewrite (translations_search_task w id obj Hfetch).
    pose proof (prefix_length _ _ (until_first_rejection_prefix w (to_translate obj))).
    pose proof (to_translate_length obj). lia.
  - rewrite (search_task_fetch_rejected w id e Hfetch). simpl. lia.
Qed.

Lemma search_tasks_translations_bound (w : World) (ids : list Z) :
  (length (translations (promise_all (map (search_task w) ids)).1)
   <= 3 * length ids)%nat.
Proof.
  rewrite promise_all_log.
  induction ids as [|id ids IH]; [simpl; lia|].
  cbn [map concat]. rewrite translations_app, length_app.
  pose proof (search_task_translations_bound w id). simpl length. lia.
Qed.

Lemma omap_length_le {A B} (f : A -> option B) (l : list A) :
  (length (omap f l) <= length l)%nat.
Proof.
  induction l as [|x l IH]; [simpl; lia|].
  csimpl. destruct (f x); simpl; lia.
Qed.

(** X4. Whatever the request and whatever the upstream answers, one
    [/search] request issues at most 21 HTTP requests (the search and at
    most 20 object fetches) and at most 60 translation calls, and renders
    at most 20 objects. This holds for every value of the page parameter,
    negative ones included. *)
Theorem X4_search_request_is_bounded (w : World) (req : Query) :
  (length (http_requests (search_handler w req).1) <= 21)%nat /\
  (length (translations (search_handler w req).1) <= 60)%nat /\
  (exists log, (search_handler w req).1 = HttpGet (request_url req) :: log) /\
  forall view page,
    (search_handler w req).2 = Resolved (Render view (ResultsLocals page)) ->
    (length (objects page) <= 20)%nat.
Proof.
  assert (forall ids, length (search_page_ids req ids) <= 20)%nat as Hslice.
  { intros ids. unfold search_page_ids.
    apply (slice_length ids _ limit). unfold limit. lia. }
  destruct (search_api w (request_url req)) as [data|e] eqn:Hsearch.
  - destruct (found_ids data) as [ids|] eqn:Hfound.
    + rewrite (search_handler_found w req data ids Hsearch Hfound).
      cbn [fst snd]. specialize (Hslice ids).
      split; [|split; [|split]].
      * unfold http_requests. cbn [omap list_omap].
        fold (http_requests
                (promise_all (map (search_task w) (search_page_ids req ids))).1).
        rewrite search_tasks_requests, length_cons, length_map. lia.
      * unfold translations. cbn [omap list_omap].
        fold (translations
                (promise_all (map (search_task w) (search_page_ids req ids))).1).
        pose proof (search_tasks_translations_bound w (search_page_ids req ids)).
        lia.
      * eauto.
      * intros view page [= _ <-]. cbn [objects].
        pose proof (omap_length_le
                      (fun id => displayable (task_value (search_task w id)))
                      (search_page_ids req ids)).
        lia.
    + rewrite (search_handler_empty w req data Hsearch Hfound). cbn.
      split; [lia|]. split; [lia|]. split; [eauto|].
      intros view page [= _ <-]. simpl. lia.
  - rewrite (search_handler_upstream_error w req e Hsearch). cbn.
    split; [lia|]. split; [lia|]. split; [eauto|]. discriminate.
Qed.

(** X5. [/search] answers with an error exactly when the upstream search
    request itself fails: the answer is then a 500 whose body is the fixed
    prefix followed by the error's message, and the search is the only
    outbound call. No failure of an object fetch or of a translation turns
    the answer into an error. *)
Theorem X5_search_error_iff_search_fails (w : World) (req : Query) :
  (forall e,
     search_api w (request_url req) = Rejected e ->
     search_handler w req
     = ([HttpGet (request_url req)],
        Resolved (Send 500
          ("Error al recuperar los objetos de arte: " +:+ err_message e)))) /\
  (forall status body,
     (search_handler w req).2 = Resolved (Send status body) ->
     exists e, search_api w (request_url req) = Rejected e) /\
  (forall data,
     search_api w (request_url req) = Resolved data ->
     exists page,
       (search_handler w req).2 = Resolved (Render "results" (ResultsLocals page))).
Proof.
  split; [apply search_handler_upstream_error|]. split.
  - intros status body Hsend.
    destruct (search_api w (request_url req)) as [data|e] eqn:Hsearch; [|eauto].
    destruct (found_ids data) as [ids|] eqn:Hfound.
    + rewrite (search_handler_found w req data ids Hsearch Hfound) in Hsend.
      discriminate Hsend.
    + rewrite (search_handler_empty w req data Hsearch Hfound) in Hsend.
      discriminate Hsend.
  - intros data Hsearch. destruct (found_ids data) as [ids|] eqn:Hfound.
    + rewrite (search_handler_found w req data ids Hsearch Hfound). eauto.
    + rewrite (search_handler_empty w req data Hsearch Hfound). eauto.
Qed.

(** ** Route [/], in full *)

(** X6. When the departments request succeeds, [/] renders the [index]
    view with one entry per upstream department, in the upstream order and
    with the upstream id; the name of an entry is the translation of the
    upstream name when the translation succeeds and the upstream name itself
    when it fails. The handler makes the one GET and then one translation
    call per department, and no failure of a translation fails the
    request. *)
Theorem X6_home_lists_every_department (w : World)
    (departments : list Department) :
  departments_api w = Resolved departments ->
  exists shown,
    home_handler w
    = (HttpGet departments_url
         :: map (fun d => TranslateCall (displayName d)) departments,
       Resolved (Render "index" (IndexLocals shown))) /\
    length shown = length departments /\
    map departmentId shown = map departmentId departments /\
    forall (i : nat) (d : Department),
      departments !! i = Some d ->
      exists s,
        shown !! i = Some s /\
        departmentId s = departmentId d /\
        (forall t, translate_api w (displayName d) = Resolved t ->
           displayName s = t) /\
        (forall e, translate_api w (displayName d) = Rejected e ->
           displayName s = displayName d).
Proof.
  intros Hdeps. exists (map (shown_department w) departments).
  split; [now apply home_handler_rendered|].
  split; [apply length_map|]. split; [now rewrite map_map|].
  intros i d Hd. exists (shown_department w d).
  split; [now rewrite list_lookup_fmap, Hd|]. split; [reflexivity|].
  unfold shown_department. cbn [displayName].
  split; [intros t ->|intros e ->]; reflexivity.
Qed.

Lemma X6_home_lists_every_department_witness :
  departments_api (museum [] out_of_service)
  = Resolved [ {| departmentId := 1; displayName := "American Decorative Arts" |};
               {| departmentId := 6; displayName := "Asian Art" |} ] /\
  exists shown,
    (home_handler (museum [] out_of_service)).2
    = Resolved (Render "index" (IndexLocals shown)) /\
    map departmentId shown = [1; 6].
Proof.
  assert (departments_api (museum [] out_of_service)
          = Resolved [ {| departmentId := 1;
                          displayName := "American Decorative Arts" |};
                       {| departmentId := 6; displayName := "Asian Art" |} ])
    as Hdeps by reflexivity.
  split; [exact Hdeps|].
  destruct (X6_home_lists_every_department _ _ Hdeps)
    as (shown & Hhome & _ & Hids & _).
  exists shown. split; [now rewrite Hhome | exact Hids].
Defined.

(** X7. [/] answers with an error exactly when the departments request
    fails: the answer is then the 500 with the fixed text, after that single
    outbound call and without any translation. *)
Theorem X7_home_error_iff_departments_fail (w : World) :
  (forall e,
     departments_api w = Rejected e ->
     home_handler w
     = ([HttpGet departments_url],
        Resolved (Send 500 "Error al cargar departamentos."))) /\
  (forall status body,
     (home_handler w).2 = Resolved (Send status body) ->
     exists e, departments_api w = Rejected e).
Proof.
  split.
  - intros e He. unfold home_handler, get_departments. now rewrite He.
  - intros status body Hsend.
    destruct (departments_api w) as [departments|e] eqn:Hdeps; [|eauto].
    rewrite (home_handler_rendered w departments Hdeps) in Hsend.
    discriminate Hsend.
Qed.

(** ** Route [/object/:id/additional-images], in full *)

(** X8. [/object/:id/additional-images] makes exactly one outbound call,
    the GET of the object. When it succeeds the answer is the JSON array of
    the object's additional images, exactly as upstream gave them (the empty
    array when the field is missing). When it fails, with whatever status,
    a 404 for an unknown id included, the answer is the 500 with the fixed
    text; and the handler sends a 500 in no other case. *)
Theorem X8_additional_images_answers (w : World) (objectId : string) :
  (additional_images_handler w objectId).1 = [HttpGet (objects_url objectId)] /\
  (forall object,
     objects_api w (objects_url objectId) = Resolved object ->
     (additional_images_handler w objectId).2
     = Resolved (Json (default [] (additionalImages object)))) /\
  (forall e,
     objects_api w (objects_url objectId) = Rejected e ->
     (additional_images_handler w objectId).2
     = Resolved (Send 500 "Error al recuperar las imágenes adicionales.")) /\
  (forall status body,
     (additional_images_handler w objectId).2 = Resolved (Send status body) ->
     exists e, objects_api w (objects_url objectId) = Rejected e).
Proof.
  unfold additional_images_handler, get_object.
  destruct (objects_api w (objects_url objectId)) as [object|e]; cbn [bind].
  - destruct (additionalImages object) as [[|image images]|] eqn:Himages;
      cbn; (split; [reflexivity|]); (split; [|split]);
      try discriminate;
      intros o [= <-]; now rewrite Himages.
  - cbn. split; [reflexivity|]. split; [discriminate|].
    split; [reflexivity|]. eauto.
Qed.

(** ** Pages at and past the edges *)

(** X9. On [/search], a page number past the last page (its offset is at
    or beyond the number of ids the search returned) gives the results page
    with no object: no object is fetched and nothing is translated. Unlike
    the empty search, the page carries no message and [totalPages] is still
    computed from the upstream total. *)
Theorem X9_search_page_past_the_end (w : World) (req : Query)
    (data : option SearchData) (ids : list Z) :
  search_api w (request_url req) = Resolved data ->
  found_ids data = Some ids ->
  1 <= page_of req ->
  Z.of_nat (length ids) <= (page_of req - 1) * 20 ->
  search_handler w req
  = ([HttpGet (request_url req)],
     Resolved (Render "results" (ResultsLocals
       {| objects := [];
          currentPage := page_of req;
          totalPages := JS.Math_ceil_div (JS.num_or (data ≫= total) 0) 20;
          echo_departmentId := Some (JS.or_default (query_departmentId req) "");
          echo_keyword := Some (JS.or_default (query_keyword req) "");
          echo_location := Some (JS.or_default (query_location req) "");
          message := None |}))).
Proof.
  intros Hsearch Hfound Hpage Hpast.
  rewrite (search_handler_found w req data ids Hsearch Hfound).
  assert (search_page_ids req ids = []) as ->.
  { rewrite search_page_ids_window by assumption. unfold page_window, limit.
    rewrite drop_ge by lia. apply take_nil. }
  reflexivity.
Qed.

Lemma X9_search_page_past_the_end_witness :
  search_api (museum (seqZ 1 45) to_spanish) (request_url (page_request (Some "4")))
  = Resolved (Some {| objectIDs := Some (seqZ 1 45); total := Some 45 |}) /\
  found_ids (Some {| objectIDs := Some (seqZ 1 45); total := Some 45 |})
  = Some (seqZ 1 45) /\
  1 <= page_of (page_request (Some "4")) /\
  Z.of_nat (length (seqZ 1 45)) <= (page_of (page_request (Some "4")) - 1) * 20 /\
  search_handler (museum (seqZ 1 45) to_spanish) (page_request (Some "4"))
  = ([HttpGet (request_url (page_request (Some "4")))],
     Resolved (Render "results" (ResultsLocals
       {| objects := []; currentPage := 4; totalPages := 3;
          echo_departmentId := Some ""; echo_keyword := Some "";
          echo_location := Some ""; message := None |}))).
Proof.
  assert (search_api (museum (seqZ 1 45) to_spanish)
            (request_url (page_request (Some "4")))
          = Resolved (Some {| objectIDs := Some (seqZ 1 45); total := Some 45 |}))
    as Hsearch by reflexivity.
  assert (found_ids (Some {| objectIDs := Some (seqZ 1 45); total := Some 45 |})
          = Some (seqZ 1 45)) as Hfound by reflexivity.
  assert (1 <= page_of (page_request (Some "4"))) as Hpage
    by (vm_compute; discriminate).
  assert (Z.of_nat (length (seqZ 1 45))
          <= (page_of (page_request (Some "4")) - 1) * 20) as Hpast
    by (vm_compute; discriminate).
  split; [exact Hsearch|]. split; [exact Hfound|]. split; [exact Hpage|].
  split; [exact Hpast|].
  exact (X9_search_page_past_the_end _ _ _ _ Hsearch Hfound Hpage Hpast).
Defined.

(** X10. A negative page number is not rejected: the handlers pass the
    negative offset to [slice], which counts it from the end of the id
    sequence. With [back = (1 - page) * pageSize], the ids of the page are
    the [pageSize] ids that start [back] places before the end when the
    sequence has that many, and otherwise the ids left of the place
    [back - pageSize] before the end (none when the sequence is shorter than
    that). The rendered page number is the negative one. *)
Theorem X10_negative_page_counts_from_the_end (w : World) (req : Query)
    (data : option SearchData) (ids : list Z) :
  page_of req < 0 ->
  search_api w (request_url req) = Resolved data ->
  found_ids data = Some ids ->
  ((1 - page_of req) * 20 <= Z.of_nat (length ids) ->
   search_page_ids req ids
   = take 20 (drop (length ids - Z.to_nat ((1 - page_of req) * 20)) ids)) /\
  (Z.of_nat (length ids) < (1 - page_of req) * 20 ->
   search_page_ids req ids
   = take (length ids - Z.to_nat (- page_of req * 20)) ids) /\
  (forall allObjects : list Z,
     (1 - page_of req) * 10 <= Z.of_nat (length allObjects) ->
     results_page_ids req allObjects
     = take 10 (drop (length allObjects - Z.to_nat ((1 - page_of req) * 10))
                     allObjects)) /\
  exists page,
    (search_handler w req).2 = Resolved (Render "results" (ResultsLocals page)) /\
    currentPage page = page_of req /\
    objects page
    = omap (fun id => displayable (task_value (search_task w id)))
           (search_page_ids req ids).
Proof.
  intros Hneg Hsearch Hfound.
  split; [|split; [|split]].
  - intros Hlong. unfold search_page_ids, JS.slice, JS.relative_index, limit.
    destruct (Z.ltb_spec ((page_of req - 1) * 20) 0); [|lia].
    destruct (Z.ltb_spec ((page_of req - 1) * 20 + 20) 0); [|lia].
    f_equal; [|f_equal]; lia.
  - intros Hshort. unfold search_page_ids, JS.slice, JS.relative_index, limit.
    destruct (Z.ltb_spec ((page_of req - 1) * 20) 0); [|lia].
    destruct (Z.ltb_spec ((page_of req - 1) * 20 + 20) 0); [|lia].
    rewrite (Z.max_r (_ + (page_of req - 1) * 20) 0) by lia.
    change (Z.to_nat 0) with 0%nat. rewrite drop_0. f_equal. lia.
  - intros allObjects Hlong.
    unfold results_page_ids, JS.slice, JS.relative_index, itemsPerPage.
    destruct (Z.ltb_spec ((page_of req - 1) * 10) 0); [|lia].
    destruct (Z.ltb_spec ((page_of req - 1) * 10 + 10) 0); [|lia].
    f_equal; [|f_equal]; lia.
  - rewrite (search_handler_found w req data ids Hsearch Hfound).
    eexists. split; [reflexivity|]. split; reflexivity.
Qed.

Lemma X10_negative_page_counts_from_the_end_witness :
  page_of (page_request (Some "-1")) < 0 /\
  search_api (museum (seqZ 1 45) to_spanish)
    (request_url (page_request (Some "-1")))
  = Resolved (Some {| objectIDs := Some (seqZ 1 45); total := Some 45 |}) /\
  found_ids (Some {| objectIDs := Some (seqZ 1 45); total := Some 45 |})
  = Some (seqZ 1 45) /\
  search_page_ids (page_request (Some "-1")) (seqZ 1 45) = seqZ 6 20.
Proof.
  assert (page_of (page_request (Some "-1")) < 0) as Hneg by reflexivity.
  assert (search_api (museum (seqZ 1 45) to_spanish)
            (request_url (page_request (Some "-1")))
          = Resolved (Some {| objectIDs := Some (seqZ 1 45); total := Some 45 |}))
    as Hsearch by reflexivity.
  assert (found_ids (Some {| objectIDs := Some (seqZ 1 45); total := Some 45 |})
          = Some (seqZ 1 45)) as Hfound by reflexivity.
  split; [exact Hneg|]. split; [exact Hsearch|]. split; [exact Hfound|].
  destruct (X10_negative_page_counts_from_the_end _ _ _ _ Hneg Hsearch Hfound)
    as (Hlong & _).
  rewrite Hlong by (vm_compute; discriminate). reflexivity.
Defined.

(** ** The pages together *)

Lemma page_windows_concat {A} (size : Z) (l : list A) (k : nat) :
  0 < size ->
  concat (map (fun p => page_window p size l) (seqZ 1 (Z.of_nat k)))
  = take (k * Z.to_nat size) l.
Proof.
  intros Hsize. induction k as [|k IH]; [reflexivity|].
  rewrite seqZ_S, map_app, concat_app, IH. cbn [map concat].
  rewrite app_nil_r. unfold page_window.
  replace (Z.to_nat ((1 + Z.of_nat k - 1) * size)) with (k * Z.to_nat size)%nat
    by nia.
  rewrite take_take_drop. f_equal. lia.
Qed.

Lemma pages_cover {A} (size n : Z) (l : list A) :
  0 < size -> is_ceiling n (Z.of_nat (length l)) size ->
  concat (map (fun p => page_window p size l) (seqZ 1 n)) = l.
Proof.
  intros Hsize [Hlow Hhigh].
  assert (0 <= n) as Hn by nia.
  rewrite <- (Z2Nat.id n Hn), page_windows_concat by assumption.
  apply take_ge. nia.
Qed.

(** X11. The pages partition the ids. Take requests for the pages
    1, 2, ..., n in this order, where n is the number of pages computed for
    the sequence (the ceiling of its length over the page size): the id
    slices of these requests, put one after the other, are the whole id
    sequence, with every id once and in order. This holds for [/search]
    with pages of 20 and for [/results] with pages of 10. *)
Theorem X11_pages_partition_the_ids (ids : list Z)
    (reqs20 reqs10 : list Query) (n20 n10 : Z) :
  map page_of reqs20 = seqZ 1 n20 ->
  is_ceiling n20 (Z.of_nat (length ids)) 20 ->
  map page_of reqs10 = seqZ 1 n10 ->
  is_ceiling n10 (Z.of_nat (length ids)) 10 ->
  n20 = JS.Math_ceil_div (Z.of_nat (length ids)) limit /\
  concat (map (fun req => search_page_ids req ids) reqs20) = ids /\
  n10 = JS.Math_ceil_div (Z.of_nat (length ids)) itemsPerPage /\
  concat (map (fun req => results_page_ids req ids) reqs10) = ids.
Proof.
  intros Hreqs20 Hn20 Hreqs10 Hn10.
  split; [|split; [|split]].
  - apply (is_ceiling_unique _ _ (Z.of_nat (length ids)) 20); [lia|exact Hn20|].
    apply Math_ceil_div_is_ceiling. lia.
  - transitivity (concat (map (fun p => page_window p 20 ids) (seqZ 1 n20)));
      [|apply pages_cover; [lia | exact Hn20]].
    rewrite <- Hreqs20, map_map. f_equal. apply map_ext_in.
    intros req Hin. apply search_page_ids_window.
    assert (page_of req ∈ seqZ 1 n20) as Hp.
    { rewrite <- Hreqs20. apply list_elem_of_In, in_map, Hin. }
    apply elem_of_seqZ in Hp. lia.
  - apply (is_ceiling_unique _ _ (Z.of_nat (length ids)) 10); [lia|exact Hn10|].
    apply Math_ceil_div_is_ceiling. lia.
  - transitivity (concat (map (fun p => page_window p 10 ids) (seqZ 1 n10)));
      [|apply pages_cover; [lia | exact Hn10]].
    rewrite <- Hreqs10, map_map. f_equal. apply map_ext_in.
    intros req Hin. apply results_page_ids_window.
    assert (page_of req ∈ seqZ 1 n10) as Hp.
    { rewrite <- Hreqs10. apply list_elem_of_In, in_map, Hin. }
    apply elem_of_seqZ in Hp. lia.
Qed.

Lemma X11_pages_partition_the_ids_witness :
  map page_of [page_request None; page_request (Some "2");
               page_request (Some "3")] = seqZ 1 3 /\
  is_ceiling 3 (Z.of_nat (length (seqZ 1 45))) 20 /\
  map page_of [page_request (Some "1"); page_request (Some "2");
               page_request (Some "3"); page_request (Some "4");
               page_request (Some "5")] = seqZ 1 5 /\
  is_ceiling 5 (Z.of_nat (length (seqZ 1 45))) 10 /\
  concat (map (fun req => search_page_ids req (seqZ 1 45))
              [page_request None; page_request (Some "2");
               page_request (Some "3")]) = seqZ 1 45.
Proof.
  assert (map page_of [page_request None; page_request (Some "2");
                       page_request (Some "3")] = seqZ 1 3) as H20
    by reflexivity.
  assert (is_ceiling 3 (Z.of_nat (length (seqZ 1 45))) 20) as Hn20
    by (vm_compute; split; [reflexivity | discriminate]).
  assert (map page_of [page_request (Some "1"); page_request (Some "2");
                       page_request (Some "3"); page_request (Some "4");
                       page_request (Some "5")] = seqZ 1 5) as H10
    by reflexivity.
  assert (is_ceiling 5 (Z.of_nat (length (seqZ 1 45))) 10) as Hn10
    by (vm_compute; split; [reflexivity | discriminate]).
  split; [exact H20|]. split; [exact Hn20|]. split; [exact H10|].
  split; [exact Hn10|].
  exact (proj1 (proj2 (X11_pages_partition_the_ids _ _ _ _ _ H20 Hn20 H10 Hn10))).
Defined.

(** ** The page parameter as a numeral *)

Lemma append_cons (c : ascii) (s rest : string) :
  String c s +:+ rest = String c (s +:+ rest).
Proof. reflexivity. Qed.

Lemma parse_digits_stop (acc : option Z) (rest : string) :
  digit_free_start rest -> JS.parse_digits 10 acc rest = acc.
Proof. destruct rest as [|c r]; simpl; [reflexivity | now intros ->]. Qed.

(** Reading the digits of a numeral after a positive number read so far. *)
Lemma parse_digits_uint_acc (d : Decimal.uint) (a : positive) (rest : string) :
  digit_free_start rest ->
  JS.parse_digits 10 (Some (Z.pos a)) (NilEmpty.string_of_uint d +:+ rest)
  = Some (Z.pos (Pos.of_uint_acc d a)).
Proof.
  intros Hrest. revert a.
  induction d as [|d IH|d IH|d IH|d IH|d IH|d IH|d IH|d IH|d IH|d IH];
    intros a; cbn [NilEmpty.string_of_uint Pos.of_uint_acc];
    [now apply parse_digits_stop|..];
    rewrite append_cons; cbn [JS.parse_digits];
    match goal with
    | |- context [JS.radix_digit 10 ?c] =>
        let v := eval vm_compute in (JS.radix_digit 10 c) in
        change (JS.radix_digit 10 c) with v
    end;
    cbn [default id];
    rewrite <- IH; f_equal; f_equal; lia.
Qed.

Lemma parse_digits_uint (d : Decimal.uint) (rest : string) :
  leading_nonzero d -> digit_free_start rest ->
  JS.parse_digits 10 None (NilEmpty.string_of_uint d +:+ rest)
  = Some (Z.of_N (Pos.of_uint d)).
Proof.
  intros Hd Hrest. destruct d; try contradiction;
    cbn [NilEmpty.string_of_uint Pos.of_uint]; rewrite append_cons;
    cbn [JS.parse_digits];
    match goal with
    | |- context [JS.radix_digit 10 ?c] =>
        let v := eval vm_compute in (JS.radix_digit 10 c) in
        change (JS.radix_digit 10 c) with v
    end;
    cbn [default id];
    match goal with
    | |- JS.parse_digits 10 (Some ?k) _ = _ =>
        let k' := eval vm_compute in k in change k with k'
    end;
    now rewrite parse_digits_uint_acc.
Qed.

Lemma numeral_head (d : Decimal.uint) (rest : string) :
  leading_nonzero d ->
  JS.trim_start (NilEmpty.string_of_uint d +:+ rest)
  = NilEmpty.string_of_uint d +:+ rest /\
  JS.strip_sign (NilEmpty.string_of_uint d +:+ rest)
  = (1, NilEmpty.string_of_uint d +:+ rest) /\
  JS.strip_prefix (NilEmpty.string_of_uint d +:+ rest)
  = (10, NilEmpty.string_of_uint d +:+ rest).
Proof.
  intros Hd. destruct d; try contradiction;
    cbn [NilEmpty.string_of_uint]; rewrite append_cons; repeat split.
Qed.

Lemma to_uint_leading_nonzero (p : positive) : leading_nonzero (Pos.to_uint p).
Proof.
  pose proof (DecimalPos.Unsigned.to_of (Pos.to_uint p)) as Hnorm.
  rewrite DecimalPos.Unsigned.of_to in Hnorm. cbn [N.to_uint] in Hnorm.
  pose proof (DecimalPos.Unsigned.to_uint_nonzero p) as Hnz.
  pose proof (DecimalPos.Unsigned.to_uint_nonnil p) as Hnn.
  destruct (Pos.to_uint p) as [|l| | | | | | | | |] eqn:Hd;
    try exact I; [congruence|].
  exfalso. unfold Decimal.unorm in Hnorm.
  destruct (Decimal.nzhead (Decimal.D0 l)) eqn:Hh;
    try (now apply DecimalFacts.nzhead_nonzero in Hh);
    try discriminate Hnorm.
  now apply Hnz.
Qed.

Lemma trim_start_white_space_bounded (n : nat) (ws s : string) :
  (String.length ws <= n)%nat ->
  JS.trim_start ws = "" -> JS.trim_start (ws +:+ s) = JS.trim_start s.
Proof.
  revert ws. induction n as [|n IH]; intros ws Hlen Hws.
  - destruct ws; [reflexivity | simpl in Hlen; lia].
  - destruct ws as [|c1 s1]; [reflexivity|].
    rewrite append_cons. cbn [JS.trim_start] in *.
    destruct (JS.is_white_space_byte c1).
    { apply IH; [simpl in Hlen; lia | exact Hws]. }
    destruct (JS.is_lead2 c1).
    { destruct s1 as [|c2 s2]; [discriminate Hws|]. rewrite append_cons.
      destruct (JS.is_white_space2 c1 c2); [|discriminate Hws].
      apply IH; [simpl in Hlen; lia | exact Hws]. }
    destruct (JS.is_lead3 c1); [|discriminate Hws].
    destruct s1 as [|c2 [|c3 s3]]; try discriminate Hws.
    rewrite !append_cons.
    destruct (JS.is_white_space3 c1 c2 c3); [|discriminate Hws].
    apply IH; [simpl in Hlen; lia | exact Hws].
Qed.

Lemma trim_start_white_space (ws s : string) :
  JS.trim_start ws = "" -> JS.trim_start (ws +:+ s) = JS.trim_start s.
Proof. now apply (trim_start_white_space_bounded (String.length ws)). Qed.

Lemma parseInt_numeral (n : Z) (ws rest : string) :
  n <> 0 -> JS.trim_start ws = "" -> digit_free_start rest ->
  JS.parseInt_string (ws +:+ JS.String_of_number n +:+ rest) = Some n.
Proof.
  intros Hn Hws Hrest. unfold JS.parseInt_string.
  rewrite trim_start_white_space by assumption.
  unfold JS.String_of_number. destruct n as [|p|p]; [congruence|..];
    cbn [Z.to_int NilZero.string_of_int];
    pose proof (to_uint_leading_nonzero p) as Hlead;
    assert (NilZero.string_of_uint (Pos.to_uint p)
            = NilEmpty.string_of_uint (Pos.to_uint p)) as ->
      by (destruct (Pos.to_uint p); [contradiction|reflexivity..]);
    destruct (numeral_head (Pos.to_uint p) rest Hlead) as (Htrim & Hsign & Hpre).
  - rewrite Htrim, Hsign, Hpre, parse_digits_uint by assumption.
    now rewrite DecimalPos.Unsigned.of_to.
  - rewrite append_cons.
    change (JS.strip_sign (JS.trim_start (String "-" ?s))) with (-1, s).
    cbv beta iota. rewrite Hpre, parse_digits_uint by assumption.
    now rewrite DecimalPos.Unsigned.of_to.
Qed.

(** X12. The page parameter is read as a decimal numeral, leniently: when
    it is the decimal writing of a safe integer n other than 0 (at most
    2^53 - 1 in absolute value), possibly after white space and possibly
    followed by anything that does not start with a digit (as in [" 3"],
    ["3.7"] or ["3abc"]), the page used is n and [/search] renders
    currentPage n. For n >= 1 with n * 20 still a safe integer, the details
    fetched are those of the ids at the indices [(n - 1) * 20, n * 20). *)
Theorem X12_page_numeral_is_the_page (w : World) (req : Query)
    (data : option SearchData) (n : Z) (ws rest : string) :
  n <> 0 ->
  - JS.MAX_SAFE_INTEGER <= n <= JS.MAX_SAFE_INTEGER ->
  JS.trim_start ws = "" ->
  digit_free_start rest ->
  query_page req = Some (ws +:+ JS.String_of_number n +:+ rest) ->
  search_api w (request_url req) = Resolved data ->
  page_of req = n /\
  (exists page,
     (search_handler w req).2 = Resolved (Render "results" (ResultsLocals page)) /\
     currentPage page = n) /\
  forall ids,
    found_ids data = Some ids ->
    1 <= n -> n * 20 <= JS.MAX_SAFE_INTEGER ->
    http_requests (search_handler w req).1
    = request_url req :: map detail_url (page_window n 20 ids).
Proof.
  intros Hn Hsafe Hws Hrest Hpage Hsearch.
  assert (page_of req = n) as Hp.
  { rewrite page_of_unfold, Hpage. cbn [JS.parseInt].
    rewrite parseInt_numeral by assumption.
    destruct (Z.eqb_spec n 0); [contradiction | reflexivity]. }
  split; [exact Hp|]. split.
  - destruct (found_ids data) as [ids|] eqn:Hfound.
    + rewrite (search_handler_found w req data ids Hsearch Hfound).
      eexists. split; [reflexivity | exact Hp].
    + rewrite (search_handler_empty w req data Hsearch Hfound).
      eexists. split; [reflexivity | exact Hp].
  - intros ids Hfound Hpos _.
    rewrite (search_handler_found w req data ids Hsearch Hfound).
    cbn [fst]. unfold http_requests at 1. cbn [omap list_omap].
    fold (http_requests
            (promise_all (map (search_task w) (search_page_ids req ids))).1).
    rewrite search_tasks_requests, search_page_ids_window by lia.
    now rewrite Hp.
Qed.

Lemma X12_page_numeral_is_the_page_witness :
  3 <> 0 /\
  - JS.MAX_SAFE_INTEGER <= 3 <= JS.MAX_SAFE_INTEGER /\
  JS.trim_start nbsp = "" /\
  digit_free_start ".7" /\
  query_page (page_request (Some (nbsp +:+ "3.7")))
  = Some (nbsp +:+ JS.String_of_number 3 +:+ ".7") /\
  search_api (museum (seqZ 1 45) to_spanish)
    (request_url (page_request (Some (nbsp +:+ "3.7"))))
  = Resolved (Some {| objectIDs := Some (seqZ 1 45); total := Some 45 |}) /\
  page_of (page_request (Some (nbsp +:+ "3.7"))) = 3 /\
  http_requests
    (search_handler (museum (seqZ 1 45) to_spanish)
       (page_request (Some (nbsp +:+ "3.7")))).1
  = request_url (page_request (Some (nbsp +:+ "3.7")))
      :: map detail_url (seqZ 41 5).
Proof.
  assert (3 <> 0) as Hn by discriminate.
  assert (- JS.MAX_SAFE_INTEGER <= 3 <= JS.MAX_SAFE_INTEGER) as Hsafe
    by (unfold JS.MAX_SAFE_INTEGER; lia).
  assert (JS.trim_start nbsp = "") as Hws by reflexivity.
  assert (digit_free_start ".7") as Hrest by reflexivity.
  assert (query_page (page_request (Some (nbsp +:+ "3.7")))
          = Some (nbsp +:+ JS.String_of_number 3 +:+ ".7")) as Hpage
    by reflexivity.
  assert (search_api (museum (seqZ 1 45) to_spanish)
            (request_url (page_request (Some (nbsp +:+ "3.7"))))
          = Resolved (Some {| objectIDs := Some (seqZ 1 45); total := Some 45 |}))
    as Hsearch by reflexivity.
  destruct (X12_page_numeral_is_the_page _ _ _ _ _ _
              Hn Hsafe Hws Hrest Hpage Hsearch) as (Hp & _ & Hlog).
  split; [exact Hn|]. split; [exact Hsafe|]. split; [exact Hws|].
  split; [exact Hrest|]. split; [exact Hpage|]. split; [exact Hsearch|].
  split; [exact Hp|].
  rewrite (Hlog (seqZ 1 45) eq_refl);
    [reflexivity | lia | unfold JS.MAX_SAFE_INTEGER; lia].
Defined.

(** ** Filter values in the upstream URL *)

Lemma request_url_spec (req : Query) : request_url req = spec_search_url req.
Proof.
  unfold request_url, search_url, spec_search_url. cbv zeta.
  change ("&departmentId=" +:+ ?x) with ("&" +:+ "departmentId" +:+ "=" +:+ x).
  change ("&q=" +:+ ?x) with ("&" +:+ "q" +:+ "=" +:+ x).
  change ("&geoLocation=" +:+ ?x) with ("&" +:+ "geoLocation" +:+ "=" +:+ x).
  rewrite !search_url_step, !append_assoc. reflexivity.
Qed.

Lemma present_nonempty (s : string) : s <> "" -> present (Some s) = Some s.
Proof. intros Hne. unfold present. now rewrite decide_False. Qed.

(** X13. Filter values are put into the upstream URL as they are, without
    any encoding, so the URL does not tell the parameters apart: a keyword
    that itself contains ["&geoLocation="] followed by a text gives, without
    any location filter, the very URL of the request that has the first part
    as keyword and that text as location. *)
Theorem X13_filter_values_are_not_encoded (departmentId page : option string)
    (keyword location : string) :
  keyword <> "" -> location <> "" ->
  request_url
    {| query_departmentId := departmentId;
       query_keyword := Some (keyword +:+ "&geoLocation=" +:+ location);
       query_location := None;
       query_page := page |}
  = request_url
      {| query_departmentId := departmentId;
         query_keyword := Some keyword;
         query_location := Some location;
         query_page := page |}.
Proof.
  intros Hk Hl. rewrite !request_url_spec.
  unfold spec_search_url, query_parameter.
  cbn [query_departmentId query_keyword query_location].
  rewrite (present_nonempty keyword Hk), (present_nonempty location Hl).
  rewrite present_nonempty by (destruct keyword; [contradiction|discriminate]).
  cbn [present]. f_equal.
  destruct (present departmentId);
    rewrite ?append_assoc, ?append_nil_r; reflexivity.
Qed.

Lemma X13_filter_values_are_not_encoded_witness :
  "vase" <> "" /\ "Japan" <> "" /\
  request_url
    {| query_departmentId := Some "6";
       query_keyword := Some "vase&geoLocation=Japan";
       query_location := None;
       query_page := None |}
  = request_url
      {| query_departmentId := Some "6";
         query_keyword := Some "vase";
         query_location := Some "Japan";
         query_page := None |}.
Proof.
  assert ("vase" <> "") as Hk by discriminate.
  assert ("Japan" <> "") as Hl by discriminate.
  split; [exact Hk|]. split; [exact Hl|].
  exact (X13_filter_values_are_not_encoded (Some "6") None "vase" "Japan" Hk Hl).
Defined.

(** ** [/results], given the id listing *)

Lemma fatal_dichotomy (w : World) (ids : list Z) :
  Forall (fun id => ~ fatal w id) ids \/ Exists (fatal w) ids.
Proof.
  induction ids as [|id ids [IH|IH]].
  - left. constructor.
  - destruct (objects_api w (detail_url id)) as [obj|e] eqn:Hfetch.
    + left. constructor; [|exact IH]. intros (e & He & _).
      unfold detail_url in *. congruence.
    + destruct (decide (err_status e = Some 404)) as [H404|Hne].
      * left. constructor; [|exact IH]. intros (e' & He' & Hne').
        unfold detail_url in *. congruence.
      * right. left. now exists e.
  - right. now right.
Qed.

(** X14. [/results], with the listing of all ids supplied, answers with
    an error exactly when the fetch of some id of the page fails with
    something other than a 404; the error is then the 500 with the fixed
    text. In every case it fetches the details of the ids of the page and of
    no other, at most 10 of them, sends nothing to translation, and renders
    at most 10 objects. *)
Theorem X14_results_given_the_listing (w : World) (req : Query)
    (log0 : list call) (allObjects : list Z) :
  ((exists status body,
      (results_handler (Some (log0, Resolved allObjects)) w req).2
      = Resolved (Send status body)) <->
   Exists (fatal w) (results_page_ids req allObjects)) /\
  (forall status body,
     (results_handler (Some (log0, Resolved allObjects)) w req).2
     = Resolved (Send status body) ->
     status = 500 /\ body = "Error al obtener resultados") /\
  (results_handler (Some (log0, Resolved allObjects)) w req).1
  = log0 ++ map (fun id => HttpGet (detail_url id))
                (results_page_ids req allObjects) /\
  (length (results_page_ids req allObjects) <= 10)%nat /\
  translations (results_handler (Some (log0, Resolved allObjects)) w req).1
  = translations log0 /\
  forall view page,
    (results_handler (Some (log0, Resolved allObjects)) w req).2
    = Resolved (Render view (ResultsLocals page)) ->
    (length (objects page) <= 10)%nat.
Proof.
  assert (length (results_page_ids req allObjects) <= 10)%nat as Hslice.
  { unfold results_page_ids. apply (slice_length allObjects _ itemsPerPage).
    unfold itemsPerPage. lia. }
  pose proof (results_handler_log _ w req log0 allObjects eq_refl) as Hlog.
  split; [|split; [|split; [exact Hlog|split; [exact Hslice|split]]]].
  - split.
    + intros (status & body & Hsend).
      destruct (fatal_dichotomy w (results_page_ids req allObjects))
        as [Hok|Hfatal]; [|exact Hfatal].
      rewrite (results_handler_rendered _ w req log0 allObjects eq_refl Hok)
        in Hsend. discriminate Hsend.
    + intros Hfatal. exists 500, "Error al obtener resultados".
      exact (results_handler_fatal _ w req log0 allObjects eq_refl Hfatal).
  - intros status body Hsend.
    destruct (fatal_dichotomy w (results_page_ids req allObjects))
      as [Hok|Hfatal].
    + rewrite (results_handler_rendered _ w req log0 allObjects eq_refl Hok)
        in Hsend. discriminate Hsend.
    + rewrite (results_handler_fatal _ w req log0 allObjects eq_refl Hfatal)
        in Hsend. injection Hsend as <- <-. auto.
  - rewrite Hlog, translations_app, <- (map_map detail_url HttpGet).
    rewrite translations_gets. apply app_nil_r.
  - intros view page Hrender.
    destruct (results_handler_page _ w req log0 allObjects view page
                eq_refl Hrender) as (_ & _ & values & Hvalues & ->).
    pose proof (omap_length_le (fun obj : option ArtObject => obj) values).
    assert (length values = length (results_page_ids req allObjects)) as Hlen.
    { clear -Hvalues.
      revert values Hvalues.
      induction (results_page_ids req allObjects) as [|id ids IH];
        intros values Hvalues.
      - injection Hvalues as <-. reflexivity.
      - cbn [map promise_all] in Hvalues.
        destruct (results_task w id) as [log [v|e]];
          destruct (promise_all (map (results_task w) ids)) as [log' [vs|e']];
          try discriminate Hvalues.
        injection Hvalues as <-. simpl. f_equal. now apply IH. }
    lia.
Qed.
